(** * Spaced-repetition core of the manga reader backend

    A shallow embedding of the SRS part of [backend/services.py],
    [backend/db.py] and [backend/app.py]: the review scheduler
    ([SRSService.review_card], [SRSService.preview_review]), the due queue,
    the day streak, the global counters and the settings profile.

    Modelling conventions.
    - The SQLite database is a record of tables; [srs_reviews] is a finite
      map keyed by its primary key [card_id].
    - Python [int] is [Z].  Python [float] is binary64 in the source; here it
      is an exact rational ([Q]).  All literals of the algorithm are decimal
      fractions, and every concrete evaluation below keeps a margin far above
      rounding error from the thresholds it is compared with.
    - [time.time()] is an argument [now] (epoch milliseconds) of the
      operation that reads the clock; a call that reads it twice gets the same
      reading twice.
    - A database operation either returns or raises; both carry the tables as
      they are at that moment. *)

From Stdlib Require Import ZArith QArith Qround Lia Lqa.
From stdpp Require Import gmap strings list sorting.

Local Open Scope Z_scope.

(** ** Python arithmetic *)

(** [int(x)] on a float: truncation towards zero. *)
Definition py_int (x : Q) : Z :=
  if Qle_bool 0 x then Qfloor x else Qceiling x.

(** [min(a, b)] and [max(a, b)]: the first argument wins a tie. *)
Definition py_min (a b : Q) : Q :=
  match (b ?= a)%Q with Lt => b | _ => a end.

Definition py_max (a b : Q) : Q :=
  match (b ?= a)%Q with Gt => b | _ => a end.

(** ** Tables *)

(** A row of [srs_reviews]. *)
Record ReviewState := mkReview {
  card_id : string;
  interval_days : Z;
  ease_factor : Q;
  repetition : Z;
  next_review : Z;
  last_review : Z;
  difficulty : Z;
  streak : Z
}.

(** The single row ([id = 1]) of [srs_stats]. *)
Record Stats := mkStats {
  total_reviews : Z;
  correct_answers : Z;
  last_updated : Z
}.

(** The single row ([id = 'default']) of [srs_settings]. *)
Record Settings := mkSettings {
  id : string;
  name : string;
  min_ease_factor : Q;
  max_ease_factor : Q;
  initial_ease_factor : Q;
  initial_interval : Z;
  second_interval : Z;
  max_difficulty : Z;
  correct_threshold : Z;
  easy_bonus : Q;
  easy_penalty : Q;
  easy_penalty_multiplier : Q;
  hard_penalty : Q;
  hard_penalty_linear : Q;
  hard_penalty_quadratic : Q;
  graduation_interval : Z;
  max_interval : Z;
  min_interval : Z;
  lapse_multiplier : Q;
  lapse_min_interval : Z;
  created_at : Z;
  updated_at : Z
}.

(** The database.  Of a flashcard only its primary key and its [timestamp]
    column matter to the SRS core. *)
Record Database := mkDb {
  flashcards : gmap string Z;
  srs_reviews : gmap string ReviewState;
  srs_stats : option Stats;
  srs_settings : option Settings
}.

Definition set_reviews (f : gmap string ReviewState → gmap string ReviewState)
    (w : Database) : Database :=
  mkDb (flashcards w) (f (srs_reviews w)) (srs_stats w) (srs_settings w).

Definition set_stats (s : option Stats) (w : Database) : Database :=
  mkDb (flashcards w) (srs_reviews w) s (srs_settings w).

Definition set_settings (s : option Settings) (w : Database) : Database :=
  mkDb (flashcards w) (srs_reviews w) (srs_stats w) s.

(** ** Operations on the database: state and exceptions *)

Inductive Exn := IntegrityError.

Inductive Outcome (A : Type) :=
| Returned (a : A) (w : Database)
| Raised (e : Exn) (w : Database).
Arguments Returned {A} a w.
Arguments Raised {A} e w.

Definition M (A : Type) : Type := Database → Outcome A.

Definition ret {A} (a : A) : M A := fun w => Returned a w.

Definition bind {A B} (m : M A) (k : A → M B) : M B :=
  fun w => match m w with
           | Returned a w' => k a w'
           | Raised e w' => Raised e w'
           end.

Notation "x ←ᴹ m ;; k" := (bind m (fun x => k))
  (at level 100, m at next level, right associativity).
Notation "m ;;ᴹ k" := (bind m (fun _ => k))
  (at level 100, right associativity).

(** The tables an outcome ends with, and whether it returned. *)
Definition final_db {A} (o : Outcome A) : Database :=
  match o with Returned _ w => w | Raised _ w => w end.

Definition returned {A} (o : Outcome A) : bool :=
  match o with Returned _ _ => true | Raised _ _ => false end.

Definition result {A} (o : Outcome A) : option A :=
  match o with Returned a _ => Some a | Raised _ _ => None end.

(** *** db.py *)

Module db.

(** [upsert_srs_review]: INSERT OR REPLACE on the primary key.  The table
  declares [FOREIGN KEY (card_id) REFERENCES flashcards (id)] and
  [get_conn] switches [PRAGMA foreign_keys = ON], so a row for a card that
  is not in [flashcards] is refused with an integrity error. *)
Definition upsert_srs_review (review : ReviewState) : M unit :=
fun w =>
  if decide (is_Some (flashcards w !! card_id review))
  then Returned tt (set_reviews (insert (card_id review) review) w)
  else Raised IntegrityError w.

Definition get_srs_review (cid : string) : M (option ReviewState) :=
fun w => Returned (srs_reviews w !! cid) w.

(** [update_srs_stats]: UPDATE ... WHERE id = 1, relative to the stored
  counters; without that row the statement changes nothing. *)
Definition update_srs_stats (total_reviews_delta correct_answers_delta now : Z)
  : M unit :=
fun w =>
  match srs_stats w with
  | Some s =>
      Returned tt
        (set_stats (Some (mkStats (total_reviews s + total_reviews_delta)
                                  (correct_answers s + correct_answers_delta)
                                  now)) w)
  | None => Returned tt w
  end.


(** SQL [LIMIT ?]: SQLite puts no upper bound on the rows when the bound
    value is negative. *)
Definition sql_limit {A} (limit : Z) (rows : list A) : list A :=
  if limit <? 0 then rows else take (Z.to_nat limit) rows.

(** The rows of [srs_reviews]. *)
Definition review_rows (w : Database) : list ReviewState :=
  (map_to_list (srs_reviews w)).*2.

Definition next_review_le (a b : ReviewState) : Prop :=
  next_review a ≤ next_review b.

#[global] Instance next_review_le_dec : RelDecision next_review_le.
Proof. intros a b. unfold next_review_le. apply _. Defined.

(** WHERE next_review <= ? ORDER BY next_review *)
Definition due_sorted (now : Z) (w : Database) : list ReviewState :=
  merge_sort next_review_le
    (filter (λ r, next_review r ≤ now) (review_rows w)).

(** [get_cards_due_for_review]:
    SELECT * FROM srs_reviews WHERE next_review <= ? ORDER BY next_review
    LIMIT ?  with [(current_time, limit)]. *)
Definition get_cards_due_for_review (limit now : Z) : M (list ReviewState) :=
  fun w => Returned (sql_limit limit (due_sorted now w)) w.

Definition timestamp_ge (a b : string * Z) : Prop := b.2 ≤ a.2.

#[global] Instance timestamp_ge_dec : RelDecision timestamp_ge.
Proof. intros a b. unfold timestamp_ge. apply _. Defined.

(** [get_flashcards]: newest first; the LIMIT clause is added only when
    [limit] is truthy.  The ids of the rows are returned. *)
Definition get_flashcards (limit : option Z) : M (list string) :=
  fun w =>
    let rows := merge_sort timestamp_ge (map_to_list (flashcards w)) in
    let rows :=
      match limit with
      | Some l => if l =? 0 then rows else sql_limit l rows
      | None => rows
      end in
    Returned rows.*1 w.

(** *** Streak *)







(** *** Settings *)

(** The profile [init_db] inserts, [get_srs_settings] falls back to and
    [reset_srs_settings_to_defaults] restores. *)
Definition default_settings (created updated : Z) : Settings :=
  {| id := "default";
     name := "SuperMemo 2 (Default)";
     min_ease_factor := 1.3;
     max_ease_factor := 2.5;
     initial_ease_factor := 2.5;
     initial_interval := 1;
     second_interval := 6;
     max_difficulty := 5;
     correct_threshold := 3;
     easy_bonus := 0.1;
     easy_penalty := 0.08;
     easy_penalty_multiplier := 0.02;
     hard_penalty := 0.8;
     hard_penalty_linear := 0.28;
     hard_penalty_quadratic := 0.02;
     graduation_interval := 21;
     max_interval := 365;
     min_interval := 1;
     lapse_multiplier := 0.0;
     lapse_min_interval := 1;
     created_at := created;
     updated_at := updated |}.

Definition get_srs_settings (now : Z) : M Settings :=
  fun w => Returned (default (default_settings now now) (srs_settings w)) w.

(** A JSON body for the settings update: each key of the profile is
    present (with a value of the column's type) or absent. *)
Record SettingsPatch := mkPatch {
  p_id : option string;
  p_name : option string;
  p_min_ease_factor : option Q;
  p_max_ease_factor : option Q;
  p_initial_ease_factor : option Q;
  p_initial_interval : option Z;
  p_second_interval : option Z;
  p_max_difficulty : option Z;
  p_correct_threshold : option Z;
  p_easy_bonus : option Q;
  p_easy_penalty : option Q;
  p_easy_penalty_multiplier : option Q;
  p_hard_penalty : option Q;
  p_hard_penalty_linear : option Q;
  p_hard_penalty_quadratic : option Q;
  p_graduation_interval : option Z;
  p_max_interval : option Z;
  p_min_interval : option Z;
  p_lapse_multiplier : option Q;
  p_lapse_min_interval : option Z;
  p_created_at : option Z;
  p_updated_at : option Z
}.

(** [for key, value in settings.items(): if key in current and key not in
    ['id', 'created_at']: current[key] = value], then
    [current['updated_at'] = current_time]. *)
Definition apply_patch (current : Settings) (p : SettingsPatch) (now : Z)
    : Settings :=
  {| id := id current;
     name := default (name current) (p_name p);
     min_ease_factor := default (min_ease_factor current) (p_min_ease_factor p);
     max_ease_factor := default (max_ease_factor current) (p_max_ease_factor p);
     initial_ease_factor :=
       default (initial_ease_factor current) (p_initial_ease_factor p);
     initial_interval := default (initial_interval current) (p_initial_interval p);
     second_interval := default (second_interval current) (p_second_interval p);
     max_difficulty := default (max_difficulty current) (p_max_difficulty p);
     correct_threshold :=
       default (correct_threshold current) (p_correct_threshold p);
     easy_bonus := default (easy_bonus current) (p_easy_bonus p);
     easy_penalty := default (easy_penalty current) (p_easy_penalty p);
     easy_penalty_multiplier :=
       default (easy_penalty_multiplier current) (p_easy_penalty_multiplier p);
     hard_penalty := default (hard_penalty current) (p_hard_penalty p);
     hard_penalty_linear :=
       default (hard_penalty_linear current) (p_hard_penalty_linear p);
     hard_penalty_quadratic :=
       default (hard_penalty_quadratic current) (p_hard_penalty_quadratic p);
     graduation_interval :=
       default (graduation_interval current) (p_graduation_interval p);
     max_interval := default (max_interval current) (p_max_interval p);
     min_interval := default (min_interval current) (p_min_interval p);
     lapse_multiplier := default (lapse_multiplier current) (p_lapse_multiplier p);
     lapse_min_interval :=
       default (lapse_min_interval current) (p_lapse_min_interval p);
     created_at := created_at current;
     updated_at := now |}.

Definition update_srs_settings (settings : SettingsPatch) (now : Z)
    : M Settings :=
  current ←ᴹ get_srs_settings now ;;
  let current := apply_patch current settings now in
  fun w => Returned current (set_settings (Some current) w).

Definition reset_srs_settings_to_defaults (now : Z) : M Settings :=
  fun w =>
    let created := default now (created_at <$> srs_settings w) in
    let default_settings := default_settings created now in
    Returned default_settings (set_settings (Some default_settings) w).

End db.
Import db.

(** *** services.py: class SRSService *)

Module SRSService.

Definition MIN_EASE_FACTOR : Q := 1.3.
Definition MAX_EASE_FACTOR : Q := 2.5.
Definition INITIAL_EASE_FACTOR : Q := 2.5.
Definition INITIAL_INTERVAL : Z := 1.

(** The row [initialize_card] builds. *)
Definition initial_review (cid : string) (now : Z) : ReviewState :=
  {| card_id := cid;
     interval_days := INITIAL_INTERVAL;
     ease_factor := INITIAL_EASE_FACTOR;
     repetition := 0;
     next_review := now;
     last_review := 0;
     difficulty := 3;
     streak := 0 |}.

Definition initialize_card (cid : string) (now : Z) : M ReviewState :=
  let review_data := initial_review cid now in
  upsert_srs_review review_data ;;ᴹ
  ret review_data.

Definition was_correct (d : Z) : bool := d <=? 3.

(** The ease factor after a rating [d] (the two branches under
    "SuperMemo 2 algorithm"; nothing happens at [d = 3]). *)
Definition adjust_ease (ease : Q) (d : Z) : Q :=
  if d <? 3 then
    py_min MAX_EASE_FACTOR
      (ease + (0.1 - inject_Z (3 - d) * (0.08 + inject_Z (3 - d) * 0.02)))%Q
  else if d >? 3 then
    py_max MIN_EASE_FACTOR
      (ease - 0.8 - inject_Z (d - 4) * 0.28
            - inject_Z (d - 4) * inject_Z (d - 4) * 0.02)%Q
  else ease.

(** Interval and repetition after a rating, given the adjusted ease. *)
Definition next_interval (rep interval : Z) (ease : Q) (d : Z) : Z :=
  if was_correct d then
    if rep =? 0 then 1
    else if rep =? 1 then 6
    else py_int (inject_Z interval * ease)
  else 1.

Definition next_repetition (rep d : Z) : Z :=
  if was_correct d then rep + 1 else 0.

Definition next_streak (s d : Z) : Z :=
  if was_correct d then s + 1 else 0.

(** The in-place updates [review_card] makes to the row, in order. *)
Definition scheduled (review : ReviewState) (d now : Z) : ReviewState :=
  let ease := adjust_ease (ease_factor review) d in
  let interval :=
    next_interval (repetition review) (interval_days review) ease d in
  {| card_id := card_id review;
     interval_days := interval;
     ease_factor := ease;
     repetition := next_repetition (repetition review) d;
     next_review := now + interval * 24 * 60 * 60 * 1000;
     last_review := now;
     difficulty := d;
     streak := next_streak (streak review) d |}.

Definition load_or_initialize (cid : string) (now : Z) : M ReviewState :=
  review ←ᴹ get_srs_review cid ;;
  match review with
  | Some r => ret r
  | None => initialize_card cid now
  end.

Definition review_card (cid : string) (d now : Z) : M ReviewState :=
  review ←ᴹ load_or_initialize cid now ;;
  let review := scheduled review d now in
  upsert_srs_review review ;;ᴹ
  update_srs_stats 1 (if was_correct d then 1 else 0) now ;;ᴹ
  ret review.

(** What [preview_review] returns. *)
Record Preview := mkPreview {
  p_card_id : string;
  predicted_interval_days : Z;
  predicted_next_review : Z;
  predicted_ease_factor : Q;
  predicted_repetition : Z;
  p_was_correct : bool;
  p_difficulty : Z;
  current : ReviewState;
  streak_if_correct : Z
}.

Definition preview_review (cid : string) (d now : Z) : M Preview :=
  existing ←ᴹ load_or_initialize cid now ;;
  let ease := adjust_ease (ease_factor existing) d in
  let interval :=
    next_interval (repetition existing) (interval_days existing) ease d in
  ret {| p_card_id := cid;
         predicted_interval_days := interval;
         predicted_next_review := now + interval * 24 * 60 * 60 * 1000;
         predicted_ease_factor := ease;
         predicted_repetition := next_repetition (repetition existing) d;
         p_was_correct := was_correct d;
         p_difficulty := d;
         current := existing;
         streak_if_correct := next_streak (streak existing) d |}.

End SRSService.

(** A database as [init_db] leaves it, with the given flashcards. *)
Definition fresh_db (cards : gmap string Z) (now : Z) : Database :=
  mkDb cards ∅ (Some (mkStats 0 0 now)) (Some (default_settings now now)).

(** *** app.py: the SRS endpoints *)

Module app.

Inductive Response (A : Type) :=
| Ok200 (body : A)
| BadRequest400 (errors : list string)
| Error500.
Arguments Ok200 {A} body.
Arguments BadRequest400 {A} errors.
Arguments Error500 {A}.

Definition Endpoint (A : Type) : Type := Database → Response A * Database.

(** The [try: ... except Exception: return ..., 500] around every handler. *)
Definition guarded {A} (m : M (Response A)) : Endpoint A :=
  fun w => match m w with
           | Returned r w' => (r, w')
           | Raised _ w' => (Error500, w')
           end.

Definition map_ui_to_backend (d : Z) : Z :=
  if d =? 1 then 4
  else if d =? 2 then 3
  else if d =? 3 then 2
  else if d =? 4 then 1
  else 2.

Record ReviewReply := mkReviewReply {
  review : ReviewState;
  server_time : Z;
  next_review_in_ms : option Z
}.

Definition truthy_string (s : option string) : bool :=
  match s with Some s => negb (String.eqb s "") | None => false end.

(** POST /srs/review *)
Definition process_srs_review (cid : option string) (difficulty_ui : option Z)
    (now : Z) : Endpoint ReviewReply :=
  guarded
    (if negb (truthy_string cid) then ret (BadRequest400 ["Missing field: card_id"])
     else match difficulty_ui with
          | None => ret (BadRequest400 ["Missing field: difficulty"])
          | Some difficulty_ui =>
              let backend_difficulty := map_ui_to_backend difficulty_ui in
              review ←ᴹ SRSService.review_card (default "" cid)
                          backend_difficulty now ;;
              let next_delta_ms :=
                if next_review review =? 0 then None
                else Some (Z.max 0 (next_review review - now)) in
              ret (Ok200 (mkReviewReply review now next_delta_ms))
          end).

(** POST /srs/preview *)
Definition preview_srs_review (cid : option string) (d : option Z) (now : Z)
    : Endpoint SRSService.Preview :=
  guarded
    (match cid, d with
     | Some cid, Some d =>
         if (d <? 1) || (d >? 5)
         then ret (BadRequest400 ["difficulty must be int 1-5"])
         else preview ←ᴹ SRSService.preview_review cid d now ;;
              ret (Ok200 preview)
     | _, _ => ret (BadRequest400 ["Missing card_id or difficulty"])
     end).

(** The seeding loop of the lazy backfill; returns [seeded]. *)
Fixpoint backfill (recent : list string) (seeded limit now : Z) : M Z :=
  match recent with
  | [] => ret seeded
  | fc :: recent =>
      existing ←ᴹ get_srs_review fc ;;
      match existing with
      | Some _ => backfill recent seeded limit now
      | None =>
          SRSService.initialize_card fc now ;;ᴹ
          let seeded := seeded + 1 in
          if seeded >=? limit then ret seeded
          else backfill recent seeded limit now
      end
  end.

(** GET /srs/due.  The backfill sits in its own [try]; when it raises,
    [cards] stays what the first query returned. *)
Definition list_cards_due (limit now : Z) : Endpoint (list ReviewState) :=
  guarded
    (cards ←ᴹ get_cards_due_for_review limit now ;;
     match cards with
     | _ :: _ => ret (Ok200 cards)
     | [] =>
         fun w =>
           match (recent ←ᴹ get_flashcards (Some limit) ;;
                  seeded ←ᴹ backfill recent 0 limit now ;;
                  if seeded >? 0 then get_cards_due_for_review limit now
                  else ret cards) w with
           | Returned cards w' => Returned (Ok200 cards) w'
           | Raised _ w' => Returned (Ok200 cards) w'
           end
     end).

(** The JSON body of POST /srs/stats. *)
Record StatsDelta := mkStatsDelta {
  total_reviews_delta : option Z;
  correct_answers_delta : option Z
}.

(** POST /srs/stats; an empty body is refused. *)
Definition update_srs_stats_endpoint (data : StatsDelta) (now : Z)
    : Endpoint unit :=
  guarded
    (match total_reviews_delta data, correct_answers_delta data with
     | None, None => ret (BadRequest400 ["Missing JSON body"])
     | td, cd =>
         update_srs_stats (default 0 td) (default 0 cd) now ;;ᴹ
         ret (Ok200 tt)
     end).

Definition Qlt_bool (a b : Q) : bool := negb (Qle_bool b a).

(** [if c: validation_errors.append(msg)] *)
Definition check (c : bool) (msg : string) : list string :=
  if c then [msg] else [].

(** The checks of POST /srs/settings, on the body alone. *)
Definition validation_errors (data : SettingsPatch) : list string :=
  let min_ease := p_min_ease_factor data in
  let max_ease := p_max_ease_factor data in
  let initial_interval := p_initial_interval data in
  let second_interval := p_second_interval data in
  let max_interval := p_max_interval data in
  let correct_threshold := p_correct_threshold data in
  let max_difficulty := p_max_difficulty data in
  check (match min_ease, max_ease with
         | Some mn, Some mx => Qle_bool mx mn
         | _, _ => false
         end)
        "Minimum ease factor must be less than maximum ease factor"
  ++ check (match min_ease with
            | Some mn => Qlt_bool mn 1.0 || Qlt_bool 3.0 mn
            | None => false
            end)
           "Minimum ease factor must be between 1.0 and 3.0"
  ++ check (match max_ease with
            | Some mx => Qlt_bool mx 1.0 || Qlt_bool 5.0 mx
            | None => false
            end)
           "Maximum ease factor must be between 1.0 and 5.0"
  ++ check (match initial_interval with Some i => i <? 1 | None => false end)
           "Initial interval must be at least 1 day"
  ++ check (match second_interval with Some i => i <? 1 | None => false end)
           "Second interval must be at least 1 day"
  ++ check (match max_interval with Some i => i <? 1 | None => false end)
           "Maximum interval must be at least 1 day"
  ++ check (match correct_threshold, max_difficulty with
            | Some ct, Some md => ct >=? md
            | _, _ => false
            end)
           "Correct threshold must be less than maximum difficulty".

Definition empty_patch : SettingsPatch :=
  mkPatch None None None None None None None None None None None
          None None None None None None None None None None None.

(** Whether the body has no key at all. *)
Definition no_keys (p : SettingsPatch) : bool :=
  match p with
  | mkPatch None None None None None None None None None None None
            None None None None None None None None None None None => true
  | _ => false
  end.

(** POST /srs/settings *)
Definition update_srs_settings (data : SettingsPatch) (now : Z)
    : Endpoint Settings :=
  guarded
    (if no_keys data then ret (BadRequest400 ["Missing JSON body"])
     else match validation_errors data with
          | [] => settings ←ᴹ db.update_srs_settings data now ;;
                  ret (Ok200 settings)
          | errors => ret (BadRequest400 errors)
          end).

End app.

Import SRSService.

(** ** Histories *)

(** The review states a card can get: [initialize_card] followed by any
    number of reviews rated 1 to 5. *)
Inductive reachable (cid : string) : ReviewState → Prop :=
| reachable_initial now : reachable cid (initial_review cid now)
| reachable_review r d now :
    reachable cid r → 1 ≤ d ≤ 5 → reachable cid (scheduled r d now).

(** Reviews of one card, one after the other; each is a [(rating, time)]
    pair.  The rows returned are collected in order. *)
Fixpoint review_all (cid : string) (ratings : list (Z * Z))
    : M (list ReviewState) :=
  match ratings with
  | [] => ret []
  | (d, now) :: ratings =>
      r ←ᴹ review_card cid d now ;;
      rs ←ᴹ review_all cid ratings ;;
      ret (r :: rs)
  end.

(** The same on the row alone, without the database. *)
Fixpoint schedule_all (r : ReviewState) (ratings : list (Z * Z))
    : list ReviewState :=
  match ratings with
  | [] => []
  | (d, now) :: ratings =>
      let r := scheduled r d now in
      r :: schedule_all r ratings
  end.




(** The requests that change the counters. *)
Inductive Request :=
| ReviewRequest (cid : string) (difficulty_ui : Z)
| PreviewRequest (cid : string) (d : Z)
| StatsRequest (total_delta correct_delta : Z).

Definition handle (req : Request) (now : Z) (w : Database) : Database :=
  match req with
  | ReviewRequest cid d =>
      (app.process_srs_review (Some cid) (Some d) now w).2
  | PreviewRequest cid d =>
      (app.preview_srs_review (Some cid) (Some d) now w).2
  | StatsRequest td cd =>
      (app.update_srs_stats_endpoint
         (app.mkStatsDelta (Some td) (Some cd)) now w).2
  end.

Fixpoint serve (reqs : list (Request * Z)) (w : Database) : Database :=
  match reqs with
  | [] => w
  | (req, now) :: reqs => serve reqs (handle req now w)
  end.

(** What GET /srs/stats reports. *)
Definition total_of (w : Database) : Z :=
  total_reviews (default (mkStats 0 0 0) (srs_stats w)).

Definition correct_of (w : Database) : Z :=
  correct_answers (default (mkStats 0 0 0) (srs_stats w)).

(** A stats adjustment that adds no more correct answers than reviews, and
    takes nothing away. *)
Definition additive (req : Request) : Prop :=
  match req with
  | StatsRequest td cd => 0 ≤ cd ≤ td
  | _ => True
  end.

(** The counters after one committed review rated [d]. *)
Definition count_review (d now : Z) (s : option Stats) : option Stats :=
  (λ s, mkStats (total_reviews s + 1)
                (correct_answers s + (if was_correct d then 1 else 0))
                now) <$> s.

(** The database after [review_card] has stored row [r] for a rating [d]. *)
Definition committed (r : ReviewState) (d now : Z) (w : Database) : Database :=
  set_stats (count_review d now (srs_stats w))
    (set_reviews (insert (card_id r) r) w).

(** The bodies [{"second_interval": n}] and [{"min_ease_factor": q}]. *)
Definition only_second_interval (n : Z) : SettingsPatch :=
  mkPatch None None None None None None (Some n) None None None None
          None None None None None None None None None None None.

Definition only_min_ease_factor (q : Q) : SettingsPatch :=
  mkPatch None None (Some q) None None None None None None None None
          None None None None None None None None None None None.

(** ** Properties under test *)

Definition ease_within_bounds (r : ReviewState) : Prop :=
  (MIN_EASE_FACTOR <= ease_factor r)%Q ∧ (ease_factor r <= MAX_EASE_FACTOR)%Q.

(** The cross-field constraints on a settings profile. *)
Definition valid_settings (s : Settings) : Prop :=
  (min_ease_factor s < max_ease_factor s)%Q
  ∧ (1.0 <= min_ease_factor s)%Q ∧ (min_ease_factor s <= 3.0)%Q
  ∧ (1.0 <= max_ease_factor s)%Q ∧ (max_ease_factor s <= 5.0)%Q
  ∧ 1 ≤ initial_interval s ∧ 1 ≤ second_interval s ∧ 1 ≤ max_interval s
  ∧ correct_threshold s < max_difficulty s.

(** The review scenario of the specification, step by step: 6 days after the
    first correct answer, [floor (6 * ease)] after the second, a reset after
    the failure. *)
Definition scenario_first_interval_six : Prop :=
  ∀ cid t0 t1 t2 t3 w r1 r2 r3,
    is_Some (flashcards w !! cid) →
    result ((initialize_card cid t0 ;;ᴹ
             review_all cid [(2, t1); (2, t2); (5, t3)]) w)
      = Some [r1; r2; r3] →
    (interval_days r1 = 6 ∧ repetition r1 = 1)
    ∧ interval_days r2 = Qfloor (6 * ease_factor r2)
    ∧ (repetition r3 = 0 ∧ interval_days r3 = 1
       ∧ (ease_factor r3 < ease_factor r2)%Q
       ∧ (MIN_EASE_FACTOR <= ease_factor r3)%Q).

(** [review_card] computed from the stored profile [s]. *)
Definition review_follows_profile : Prop :=
  ∀ w s cid r0 d now r,
    srs_settings w = Some s →
    srs_reviews w !! cid = Some r0 →
    1 ≤ d ≤ 5 →
    result (review_card cid d now w) = Some r →
    (d ≤ correct_threshold s →
       (repetition r0 = 0 → interval_days r = initial_interval s)
       ∧ (repetition r0 = 1 → interval_days r = second_interval s))
    ∧ (correct_threshold s < d → interval_days r = lapse_min_interval s)
    ∧ (min_ease_factor s <= ease_factor r)%Q
    ∧ (ease_factor r <= max_ease_factor s)%Q.



(** The counters never decrease and [correct_answers <= total_reviews], for
    every sequence of requests from the initial counters. *)
Definition stats_monotone_and_consistent : Prop :=
  ∀ cards t0 reqs req now,
    let w := serve reqs (fresh_db cards t0) in
    let w' := handle req now w in
    total_of w ≤ total_of w' ∧ correct_of w ≤ correct_of w'
    ∧ correct_of w ≤ total_of w.


(** ** Further operations *)

(** *** db.py: flashcards, deletion, listing *)

Definition set_flashcards (f : gmap string Z → gmap string Z) (w : Database)
    : Database :=
  mkDb (f (flashcards w)) (srs_reviews w) (srs_stats w) (srs_settings w).

(** [get_flashcard], imported by services.py as [db_get_flashcard]. *)
Definition db_get_flashcard (cid : string) : M (option Z) :=
  fun w => Returned (flashcards w !! cid) w.

(** [insert_flashcard]: INSERT OR REPLACE.  Replacing a row deletes the old
    one first, and with it ([ON DELETE CASCADE]) the review row that
    references it. *)
Definition insert_flashcard (cid : string) (timestamp : Z) : M unit :=
  fun w =>
    Returned tt
      (set_flashcards (insert cid timestamp)
         (match flashcards w !! cid with
          | Some _ => set_reviews (delete cid) w
          | None => w
          end)).

(** [delete_flashcard] of db.py ([db_delete_flashcard] in services.py):
    returns whether a row went; the review row of the card goes with it
    ([ON DELETE CASCADE]). *)
Definition db_delete_flashcard (cid : string) : M bool :=
  fun w =>
    match flashcards w !! cid with
    | Some _ =>
        Returned true (set_flashcards (delete cid) (set_reviews (delete cid) w))
    | None => Returned false w
    end.

(** [delete_srs_review] ([db_delete_srs_review] in services.py). *)
Definition db_delete_srs_review (cid : string) : M bool :=
  fun w =>
    match srs_reviews w !! cid with
    | Some _ => Returned true (set_reviews (delete cid) w)
    | None => Returned false w
    end.

(** SQL [LIMIT ? OFFSET ?]: a negative offset counts as 0. *)
Definition sql_limit_offset {A} (limit offset : Z) (rows : list A) : list A :=
  sql_limit limit (drop (Z.to_nat offset) rows).

(** [get_all_srs_reviews]: optional filter on [changed_since], ascending
    [next_review], and a page; the OFFSET clause is only written when a LIMIT
    is. *)
Definition get_all_srs_reviews (limit offset changed_since : option Z)
    : M (list ReviewState) :=
  fun w =>
    let rows :=
      match changed_since with
      | Some cs =>
          filter (λ r, cs ≤ last_review r ∨ cs ≤ next_review r) (review_rows w)
      | None => review_rows w
      end in
    let rows := merge_sort next_review_le rows in
    Returned
      (match limit with
       | Some l =>
           match offset with
           | Some o => sql_limit_offset l o rows
           | None => sql_limit l rows
           end
       | None => rows
       end) w.

(** *** services.py: deletion and statistics *)

(** [delete_flashcard] of services.py.  The image file it removes is not part
    of the database. *)
Definition delete_flashcard (cid : string) : M bool :=
  fc ←ᴹ db_get_flashcard cid ;;
  match fc with
  | None => ret false
  | Some _ =>
      deleted ←ᴹ db_delete_flashcard cid ;;
      (fun w =>
         match (review ←ᴹ get_srs_review cid ;;
                match review with
                | Some _ => db_delete_srs_review cid ;;ᴹ ret tt
                | None => ret tt
                end) w with
         | Returned _ w' => Returned deleted w'
         | Raised _ w' => Returned deleted w'
         end)
  end.




Record ByInterval := mkByInterval {
  new_cards : list string;
  learning_cards : list string;
  mature_cards : list string
}.

(** The loop of [SRSService.get_cards_by_interval]. *)
Fixpoint categorize (reviews : list ReviewState) (acc : ByInterval)
    : ByInterval :=
  match reviews with
  | [] => acc
  | review :: reviews =>
      categorize reviews
        (if repetition review =? 0 then
           mkByInterval (new_cards acc ++ [card_id review])
                        (learning_cards acc) (mature_cards acc)
         else if interval_days review <? 21 then
           mkByInterval (new_cards acc)
                        (learning_cards acc ++ [card_id review])
                        (mature_cards acc)
         else
           mkByInterval (new_cards acc) (learning_cards acc)
                        (mature_cards acc ++ [card_id review]))
  end.

Definition get_cards_by_interval : M ByInterval :=
  reviews ←ᴹ get_all_srs_reviews None None None ;;
  ret (categorize reviews (mkByInterval [] [] [])).

(** *** app.py: flashcards and raw review rows *)

Inductive CreateReply := Created201 | CreateError500.

(** POST /flashcards for a body with its required fields; of the record only
    [id] and [timestamp] reach the tables modelled here.  A failing
    initialisation is logged and the card is created all the same. *)
Definition create_flashcard (cid : string) (timestamp now : Z)
    : Database → CreateReply * Database :=
  fun w =>
    match (insert_flashcard cid timestamp ;;ᴹ
           (fun w =>
              match initialize_card cid now w with
              | Returned _ w' => Returned tt w'
              | Raised _ w' => Returned tt w'
              end)) w with
    | Returned _ w' => (Created201, w')
    | Raised _ w' => (CreateError500, w')
    end.

Inductive DeleteReply := Deleted200 | NotFound404 | DeleteError500.

(** DELETE /flashcards/<card_id> *)
Definition delete_flashcard_endpoint (cid : string)
    : Database → DeleteReply * Database :=
  fun w =>
    match delete_flashcard cid w with
    | Returned ok w' => (if ok then Deleted200 else NotFound404, w')
    | Raised _ w' => (DeleteError500, w')
    end.

(** The JSON body of POST /srs/reviews. *)
Record ReviewBody := mkReviewBody {
  b_card_id : option string;
  b_interval_days : option Z;
  b_ease_factor : option Q;
  b_repetition : option Z;
  b_next_review : option Z;
  b_last_review : option Z;
  b_difficulty : option Z;
  b_streak : option Z
}.

(** POST /srs/reviews: the first missing required field is reported;
    [streak] defaults to 0. *)
Definition create_or_update_srs_review (data : ReviewBody)
    : app.Endpoint unit :=
  app.guarded
    (match b_card_id data, b_interval_days data, b_ease_factor data,
           b_repetition data, b_next_review data, b_last_review data,
           b_difficulty data with
     | None, _, _, _, _, _, _ =>
         ret (app.BadRequest400 ["Missing field: card_id"])
     | _, None, _, _, _, _, _ =>
         ret (app.BadRequest400 ["Missing field: interval_days"])
     | _, _, None, _, _, _, _ =>
         ret (app.BadRequest400 ["Missing field: ease_factor"])
     | _, _, _, None, _, _, _ =>
         ret (app.BadRequest400 ["Missing field: repetition"])
     | _, _, _, _, None, _, _ =>
         ret (app.BadRequest400 ["Missing field: next_review"])
     | _, _, _, _, _, None, _ =>
         ret (app.BadRequest400 ["Missing field: last_review"])
     | _, _, _, _, _, _, None =>
         ret (app.BadRequest400 ["Missing field: difficulty"])
     | Some cid, Some i, Some e, Some rep, Some nr, Some lr, Some d =>
         upsert_srs_review
           (mkReview cid i e rep nr lr d (default 0 (b_streak data))) ;;ᴹ
         ret (app.Ok200 tt)
     end).

(** POST /srs/settings/reset *)
Definition reset_srs_settings (now : Z) : app.Endpoint Settings :=
  app.guarded
    (settings ←ᴹ reset_srs_settings_to_defaults now ;;
     ret (app.Ok200 settings)).

(** *** The requests of the SRS and flashcard endpoints *)

Inductive Operation :=
| CreateFlashcard (cid : string) (timestamp : Z)
| DeleteFlashcard (cid : string)
| PutReview (data : ReviewBody)
| Review (cid : option string) (difficulty_ui : option Z)
| Preview (cid : option string) (d : option Z)
| Due (limit : Z)
| AdjustStats (data : app.StatsDelta)
| UpdateSettings (data : SettingsPatch)
| ResetSettings.

Definition perform (op : Operation) (now : Z) (w : Database) : Database :=
  match op with
  | CreateFlashcard cid ts => (create_flashcard cid ts now w).2
  | DeleteFlashcard cid => (delete_flashcard_endpoint cid w).2
  | PutReview data => (create_or_update_srs_review data w).2
  | Review cid d => (app.process_srs_review cid d now w).2
  | Preview cid d => (app.preview_srs_review cid d now w).2
  | Due limit => (app.list_cards_due limit now w).2
  | AdjustStats data => (app.update_srs_stats_endpoint data now w).2
  | UpdateSettings data => (app.update_srs_settings data now w).2
  | ResetSettings => (reset_srs_settings now w).2
  end.

(** Every review row is stored under its own [card_id], and that card
    exists. *)
Definition consistent (w : Database) : Prop :=
  ∀ k r, srs_reviews w !! k = Some r →
         card_id r = k ∧ is_Some (flashcards w !! k).

(** An operation that keeps the review table consistent, whether it returns
    or raises. *)
Definition preserves {A} (m : M A) : Prop :=
  ∀ w, consistent w → consistent (final_db (m w)).

Fixpoint perform_all (ops : list (Operation * Z)) (w : Database) : Database :=
  match ops with
  | [] => w
  | (op, now) :: ops => perform_all ops (perform op now w)
  end.

(** The rows [get_all_srs_reviews] keeps: all, or those changed since. *)
Definition selected (changed_since : option Z) (r : ReviewState) : Prop :=
  match changed_since with
  | Some cs => cs ≤ last_review r ∨ cs ≤ next_review r
  | None => True
  end.

(** * Theorems *)

(** ** Python arithmetic *)

Lemma py_min_le_l a b : (py_min a b <= a)%Q.
Proof. unfold py_min. destruct (Qcompare_spec b a); lra. Qed.

Lemma py_min_le_r a b : (py_min a b <= b)%Q.
Proof. unfold py_min. destruct (Qcompare_spec b a); lra. Qed.

Lemma py_min_glb a b c : (c <= a)%Q → (c <= b)%Q → (c <= py_min a b)%Q.
Proof. intros. unfold py_min. destruct (b ?= a)%Q; assumption. Qed.

Lemma py_max_ge_l a b : (a <= py_max a b)%Q.
Proof. unfold py_max. destruct (Qcompare_spec b a); lra. Qed.

Lemma py_max_ge_r a b : (b <= py_max a b)%Q.
Proof. unfold py_max. destruct (Qcompare_spec b a); lra. Qed.

Lemma py_max_lub a b c : (a <= c)%Q → (b <= c)%Q → (py_max a b <= c)%Q.
Proof. intros. unfold py_max. destruct (b ?= a)%Q; assumption. Qed.

Lemma py_int_nonneg x : (0 <= x)%Q → py_int x = Qfloor x.
Proof. intros H. unfold py_int. apply Qle_bool_iff in H. now rewrite H. Qed.

Lemma py_int_ge_1 x : (1 <= x)%Q → 1 ≤ py_int x.
Proof.
  intros H. rewrite py_int_nonneg by lra.
  change 1 with (Qfloor 1). now apply Qfloor_resp_le.
Qed.

(** ** The monad *)

Lemma bind_returned {A B} (m : M A) (k : A → M B) w a w' :
  m w = Returned a w' → bind m k w = k a w'.
Proof. unfold bind. now intros ->. Qed.

Lemma bind_raised {A B} (m : M A) (k : A → M B) w e w' :
  m w = Raised e w' → bind m k w = Raised e w'.
Proof. unfold bind. now intros ->. Qed.

(** ** The scheduler on one row *)

Section Scheduler.
Variables (ease : Q) (d : Z).

(** An easy or hard rating never lifts the ease factor over the maximum. *)
Lemma adjust_ease_upper :
  (ease <= MAX_EASE_FACTOR)%Q → (adjust_ease ease d <= MAX_EASE_FACTOR)%Q.
Proof.
  intros H. unfold adjust_ease.
  destruct (d <? 3); [apply py_min_le_l|].
  destruct (d >? 3) eqn:E; [|exact H].
  apply py_max_lub; [unfold MIN_EASE_FACTOR, MAX_EASE_FACTOR; lra|].
  apply Z.gtb_lt in E.
  assert (0 <= inject_Z (d - 4))%Q
    by (change 0%Q with (inject_Z 0); rewrite <- Zle_Qle; lia).
  unfold MAX_EASE_FACTOR in *. nra.
Qed.

(** From the rating 2 upwards the minimum is kept as well. *)
Lemma adjust_ease_lower :
  2 ≤ d → (MIN_EASE_FACTOR <= ease)%Q →
  (MIN_EASE_FACTOR <= adjust_ease ease d)%Q.
Proof.
  intros Hd H. unfold adjust_ease.
  destruct (d <? 3) eqn:E.
  - assert (d = 2) as -> by lia.
    change (inject_Z (3 - 2)) with 1%Q.
    apply py_min_glb; unfold MIN_EASE_FACTOR, MAX_EASE_FACTOR in *; lra.
  - destruct (d >? 3); [apply py_max_ge_l | exact H].
Qed.

(** The rating 1 costs 0.14, whatever the ease factor was. *)
Lemma adjust_ease_easiest :
  (ease <= MAX_EASE_FACTOR)%Q → (adjust_ease ease 1 == ease - 0.14)%Q.
Proof.
  intros H. unfold adjust_ease. cbn [Z.ltb Z.compare Pos.compare Pos.compare_cont].
  change (inject_Z (3 - 1)) with 2%Q.
  unfold py_min, MAX_EASE_FACTOR in *.
  destruct (Qcompare_spec (ease + (0.1 - 2 * (0.08 + 2 * 0.02))) 2.5); lra.
Qed.

(** With an ease factor of at least 1 the interval stays at 1 or more. *)
Lemma next_interval_ge_1 rep interval :
  1 ≤ interval → (1 <= ease)%Q → 1 ≤ next_interval rep interval ease d.
Proof.
  intros Hi He. unfold next_interval.
  destruct (was_correct d); [|lia].
  destruct (rep =? 0); [lia|]. destruct (rep =? 1); [lia|].
  apply py_int_ge_1.
  assert (1 <= inject_Z interval)%Q
    by (change 1%Q with (inject_Z 1); now rewrite <- Zle_Qle).
  nra.
Qed.
End Scheduler.

(** ** Reads and writes of [review_card] and [preview_review] *)

Lemma set_stats_id w : set_stats (srs_stats w) w = w.
Proof. now destruct w. Qed.

Lemma upsert_returns review w :
  is_Some (flashcards w !! card_id review) →
  upsert_srs_review review w
  = Returned tt (set_reviews (insert (card_id review) review) w).
Proof. intros H. unfold upsert_srs_review. now rewrite decide_True. Qed.

Lemma upsert_refused review w :
  flashcards w !! card_id review = None →
  upsert_srs_review review w = Raised IntegrityError w.
Proof.
  intros H. unfold upsert_srs_review. rewrite decide_False; [done|].
  rewrite H. now intros [? ?].
Qed.

Lemma update_srs_stats_review d now w :
  update_srs_stats 1 (if was_correct d then 1 else 0) now w
  = Returned tt (set_stats (count_review d now (srs_stats w)) w).
Proof.
  unfold update_srs_stats, count_review.
  destruct (srs_stats w) eqn:E; simpl; [done|].
  now rewrite <- E, set_stats_id.
Qed.

Lemma load_stored cid now w r :
  srs_reviews w !! cid = Some r → load_or_initialize cid now w = Returned r w.
Proof. intros H. unfold load_or_initialize, bind, get_srs_review. now rewrite H. Qed.

Lemma load_fresh cid now w :
  srs_reviews w !! cid = None → is_Some (flashcards w !! cid) →
  load_or_initialize cid now w
  = Returned (initial_review cid now)
      (set_reviews (insert cid (initial_review cid now)) w).
Proof.
  intros H Hfc. unfold load_or_initialize, bind, get_srs_review. rewrite H.
  unfold initialize_card, bind. now rewrite upsert_returns.
Qed.

Lemma load_orphan cid now w :
  srs_reviews w !! cid = None → flashcards w !! cid = None →
  load_or_initialize cid now w = Raised IntegrityError w.
Proof.
  intros H Hfc. unfold load_or_initialize, bind, get_srs_review. rewrite H.
  unfold initialize_card, bind. now rewrite upsert_refused.
Qed.

(** A stored row is rescheduled, written back and counted. *)
Lemma review_card_stored cid d now w r :
  srs_reviews w !! cid = Some r →
  is_Some (flashcards w !! card_id r) →
  review_card cid d now w
  = Returned (scheduled r d now) (committed (scheduled r d now) d now w).
Proof.
  intros H Hfc. unfold review_card.
  rewrite (bind_returned _ _ _ _ _ (load_stored cid now w r H)).
  unfold bind at 1. rewrite upsert_returns by exact Hfc.
  unfold bind. now rewrite update_srs_stats_review.
Qed.

(** Without a stored row the default row is written first. *)
Lemma review_card_fresh cid d now w :
  srs_reviews w !! cid = None → is_Some (flashcards w !! cid) →
  review_card cid d now w
  = Returned (scheduled (initial_review cid now) d now)
      (committed (scheduled (initial_review cid now) d now) d now
         (set_reviews (insert cid (initial_review cid now)) w)).
Proof.
  intros H Hfc. unfold review_card.
  rewrite (bind_returned _ _ _ _ _ (load_fresh cid now w H Hfc)).
  unfold bind at 1. rewrite upsert_returns by exact Hfc.
  unfold bind. now rewrite update_srs_stats_review.
Qed.

Lemma review_card_orphan cid d now w :
  srs_reviews w !! cid = None → flashcards w !! cid = None →
  review_card cid d now w = Raised IntegrityError w.
Proof.
  intros H Hfc. unfold review_card.
  now rewrite (bind_raised _ _ _ _ _ (load_orphan cid now w H Hfc)).
Qed.

Lemma preview_review_stored cid d now w r :
  srs_reviews w !! cid = Some r →
  final_db (preview_review cid d now w) = w.
Proof.
  intros H. unfold preview_review.
  now rewrite (bind_returned _ _ _ _ _ (load_stored cid now w r H)).
Qed.

Lemma preview_review_fresh cid d now w :
  srs_reviews w !! cid = None → is_Some (flashcards w !! cid) →
  returned (preview_review cid d now w) = true
  ∧ final_db (preview_review cid d now w)
    = set_reviews (insert cid (initial_review cid now)) w.
Proof.
  intros H Hfc. unfold preview_review.
  now rewrite (bind_returned _ _ _ _ _ (load_fresh cid now w H Hfc)).
Qed.

Lemma preview_review_orphan cid d now w :
  srs_reviews w !! cid = None → flashcards w !! cid = None →
  preview_review cid d now w = Raised IntegrityError w.
Proof.
  intros H Hfc. unfold preview_review.
  now rewrite (bind_raised _ _ _ _ _ (load_orphan cid now w H Hfc)).
Qed.

(** [preview_review] leaves the counters, the settings and the flashcards
    alone in every case. *)
Lemma preview_review_frame cid d now w :
  let w' := final_db (preview_review cid d now w) in
  srs_stats w' = srs_stats w ∧ srs_settings w' = srs_settings w
  ∧ flashcards w' = flashcards w.
Proof.
  destruct (srs_reviews w !! cid) as [r|] eqn:H.
  - simpl. now rewrite (preview_review_stored cid d now w r H).
  - destruct (flashcards w !! cid) as [t|] eqn:Hfc.
    + destruct (preview_review_fresh cid d now w H) as [_ ->]; [by eexists|done].
    + simpl. now rewrite preview_review_orphan.
Qed.

(** ** Sequences of reviews *)

Lemma committed_lookup r d now w :
  srs_reviews (committed r d now w) !! card_id r = Some r.
Proof. unfold committed. simpl. apply lookup_insert_eq. Qed.

Lemma committed_flashcards r d now w :
  flashcards (committed r d now w) = flashcards w.
Proof. reflexivity. Qed.

(** Reviewing a stored card again and again returns what the scheduler
    computes from row to row. *)
Lemma review_all_stored ratings : ∀ cid w r,
  srs_reviews w !! cid = Some r → card_id r = cid →
  is_Some (flashcards w !! cid) →
  result (review_all cid ratings w) = Some (schedule_all r ratings).
Proof.
  induction ratings as [|[d now] ratings IH]; intros cid w r Hr Hid Hfc; [done|].
  cbn [review_all schedule_all].
  rewrite (bind_returned _ _ _ _ _
             (review_card_stored cid d now w r Hr ltac:(now rewrite Hid))).
  set (r' := scheduled r d now).
  assert (Hid' : card_id r' = cid) by exact Hid.
  assert (Hrec : result (review_all cid ratings (committed r' d now w))
                 = Some (schedule_all r' ratings)).
  { apply IH; [rewrite <- Hid'; apply committed_lookup | done | done]. }
  unfold bind.
  destruct (review_all cid ratings (committed r' d now w)); simpl in Hrec |- *;
    congruence.
Qed.

Lemma initialize_then_review_all cid t0 ratings w :
  is_Some (flashcards w !! cid) →
  result ((initialize_card cid t0 ;;ᴹ review_all cid ratings) w)
  = Some (schedule_all (initial_review cid t0) ratings).
Proof.
  intros Hfc. unfold initialize_card.
  unfold bind at 1. unfold bind at 1. rewrite upsert_returns by exact Hfc.
  unfold ret. apply review_all_stored; [apply lookup_insert_eq|done|done].
Qed.

Lemma schedule_all_reachable cid ratings : ∀ r,
  reachable cid r → Forall (λ x, 1 ≤ x.1 ≤ 5) ratings →
  Forall (reachable cid) (schedule_all r ratings).
Proof.
  induction ratings as [|[d now] ratings IH]; intros r Hr Hds; [constructor|].
  inversion_clear Hds. cbn [schedule_all]. constructor.
  - now constructor.
  - apply IH; [now constructor|done].
Qed.

(** ** Ease-factor bounds *)

(** C1, at the input where the code leaves the bounds: a card that failed
    twice holds the minimum ease factor 1.3 (within the bounds, reachable);
    the rating 1 then stores 1.16, below [MIN_EASE_FACTOR].  The easy branch
    of [review_card] clamps to the maximum only. *)
Theorem easy_rating_drops_ease_below_minimum :
  let w := final_db ((initialize_card "c" 0 ;;ᴹ
                      review_all "c" [(5, 1000); (5, 2000)])
                       (fresh_db {["c" := 0]} 0)) in
  ∃ r0 r,
    srs_reviews w !! "c" = Some r0
    ∧ reachable "c" r0
    ∧ ease_within_bounds r0
    ∧ result (review_card "c" 1 3000 w) = Some r
    ∧ (ease_factor r == 1.16)%Q
    ∧ (ease_factor r < MIN_EASE_FACTOR)%Q.
Proof.
  exists (scheduled (scheduled (initial_review "c" 0) 5 1000) 5 2000).
  eexists. split; [vm_compute; reflexivity|].
  split.
  { apply reachable_review; [apply reachable_review|]; [constructor|lia|lia]. }
  split; [split; vm_compute; discriminate|].
  split; [vm_compute; reflexivity|].
  split; vm_compute; reflexivity.
Qed.

(** The bounds that do hold: the maximum after every rating, the minimum
    after every rating but 1. *)
Lemma scheduled_keeps_maximum r d now :
  (ease_factor r <= MAX_EASE_FACTOR)%Q →
  (ease_factor (scheduled r d now) <= MAX_EASE_FACTOR)%Q.
Proof. apply adjust_ease_upper. Qed.

Lemma scheduled_keeps_minimum r d now :
  2 ≤ d → (MIN_EASE_FACTOR <= ease_factor r)%Q →
  (MIN_EASE_FACTOR <= ease_factor (scheduled r d now))%Q.
Proof. apply adjust_ease_lower. Qed.

(** ** Interval bound *)

(** C6, at the input where the code breaks it: after two failures and six
    ratings of 1 the card is stored with [interval_days = 0].  The ease factor
    has sunk to 0.46 by then (see C1), and [int(1 * 0.46)] is 0. *)
Theorem easy_ratings_reach_interval_zero :
  ∃ rows r,
    result ((initialize_card "c" 0 ;;ᴹ
             review_all "c" [(5, 1000); (5, 2000); (1, 3000); (1, 4000);
                             (1, 5000); (1, 6000); (1, 7000); (1, 8000)])
              (fresh_db {["c" := 0]} 0)) = Some rows
    ∧ last rows = Some r
    ∧ reachable "c" r
    ∧ repetition r = 6
    ∧ (ease_factor r == 0.46)%Q
    ∧ interval_days r = 0.
Proof.
  eexists. eexists.
  split; [apply initialize_then_review_all; vm_compute; eauto|].
  split; [reflexivity|].
  split.
  { repeat (apply reachable_review; [|lia]). apply reachable_initial. }
  repeat split; vm_compute; reflexivity.
Qed.

(** ** The review scenario *)

(** C3, counterexample: the first correct review of a fresh card schedules 1
    day, not 6. *)
Lemma scenario_first_interval_is_not_six : ¬ scenario_first_interval_six.
Proof.
  intros H.
  pose (r1 := scheduled (initial_review "c" 0) 2 1000).
  pose (r2 := scheduled r1 2 2000).
  pose (r3 := scheduled r2 5 3000).
  destruct (H "c" 0 1000 2000 3000 (fresh_db {["c" := 0]} 0) r1 r2 r3)
    as [[H6 _] _].
  - vm_compute. eauto.
  - vm_compute. reflexivity.
  - vm_compute in H6. discriminate.
Qed.

(** C3, amended: from a freshly initialized card the first review rated 2
    gives [interval_days = 1], [repetition = 1]; the second gives
    [interval_days = 6], [repetition = 2], the ease factor still 2.5; a
    review rated 5 then gives [repetition = 0], [interval_days = 1] and the
    ease factor 1.4, lower than before and not below the minimum. *)
Theorem scenario_intervals_one_then_six cid t0 t1 t2 t3 w :
  is_Some (flashcards w !! cid) →
  ∃ r1 r2 r3,
    result ((initialize_card cid t0 ;;ᴹ
             review_all cid [(2, t1); (2, t2); (5, t3)]) w)
      = Some [r1; r2; r3]
    ∧ (interval_days r1 = 1 ∧ repetition r1 = 1)
    ∧ (interval_days r2 = 6 ∧ repetition r2 = 2
       ∧ (ease_factor r2 == 2.5)%Q)
    ∧ (repetition r3 = 0 ∧ interval_days r3 = 1
       ∧ (ease_factor r3 == 1.4)%Q
       ∧ (ease_factor r3 < ease_factor r2)%Q
       ∧ (MIN_EASE_FACTOR <= ease_factor r3)%Q).
Proof.
  intros Hfc.
  exists (scheduled (initial_review cid t0) 2 t1).
  exists (scheduled (scheduled (initial_review cid t0) 2 t1) 2 t2).
  exists (scheduled (scheduled (scheduled (initial_review cid t0) 2 t1) 2 t2)
            5 t3).
  split; [now rewrite initialize_then_review_all|].
  repeat split; vm_compute; (reflexivity || discriminate).
Qed.

Lemma scenario_intervals_one_then_six_witness :
  ∃ r1 r2 r3,
    result ((initialize_card "c" 0 ;;ᴹ
             review_all "c" [(2, 1000); (2, 2000); (5, 3000)])
              (fresh_db {["c" := 0]} 0))
      = Some [r1; r2; r3]
    ∧ (interval_days r1 = 1 ∧ repetition r1 = 1)
    ∧ (interval_days r2 = 6 ∧ repetition r2 = 2
       ∧ (ease_factor r2 == 2.5)%Q)
    ∧ (repetition r3 = 0 ∧ interval_days r3 = 1
       ∧ (ease_factor r3 == 1.4)%Q
       ∧ (ease_factor r3 < ease_factor r2)%Q
       ∧ (MIN_EASE_FACTOR <= ease_factor r3)%Q).
Proof.
  apply (scenario_intervals_one_then_six "c" 0 1000 2000 3000).
  vm_compute. eauto.
Defined.

(** ** Cards without a review state *)




(** ** Preview *)

(** C2, at the input where the code breaks it: previewing a card that has a
    flashcard but no review state writes the default row to [srs_reviews].
    The counters stay as they were. *)
Theorem preview_review_persists_default_row :
  let w := fresh_db {["c" := 0]} 0 in
  let w' := final_db (preview_review "c" 3 1000 w) in
  srs_reviews w !! "c" = None
  ∧ returned (preview_review "c" 3 1000 w) = true
  ∧ srs_reviews w' !! "c" = Some (initial_review "c" 1000)
  ∧ srs_stats w' = srs_stats w.
Proof. repeat split; vm_compute; reflexivity. Qed.

(** ** The settings profile and the scheduler *)

(** C4, counterexample: with [second_interval] set to 10 in the stored
    profile, the second correct review still schedules 6 days. *)
Lemma review_ignores_stored_profile : ¬ review_follows_profile.
Proof.
  intros H.
  pose (w1 := (app.update_srs_settings (only_second_interval 10) 500
                 (fresh_db {["c" := 0]} 0)).2).
  pose (w2 := final_db ((initialize_card "c" 0 ;;ᴹ review_card "c" 2 1000) w1)).
  pose (s := apply_patch (default_settings 0 0) (only_second_interval 10) 500).
  pose (r0 := scheduled (initial_review "c" 0) 2 1000).
  destruct (H w2 s "c" r0 2 2000 (scheduled r0 2 2000)) as [Hc _].
  - vm_compute. reflexivity.
  - vm_compute. reflexivity.
  - lia.
  - vm_compute. reflexivity.
  - destruct Hc as [_ H1]; [vm_compute; discriminate|].
    specialize (H1 eq_refl). vm_compute in H1. discriminate.
Qed.

(** C4, amended: [review_card] does not read the stored profile.  Whatever
    profile is stored, the row it returns is the same, and it is computed
    with the values of the default profile: 1 day at repetition 0, 6 days at
    repetition 1, correct when the rating is at most 3, 1 day after an
    incorrect answer; the ease factor is held under 2.5 by a rating below 3
    and over 1.3 by a rating above 3. *)
Theorem review_card_uses_default_constants w s cid r0 d now r :
  srs_reviews w !! cid = Some r0 →
  result (review_card cid d now w) = Some r →
  let s0 := default_settings 0 0 in
  result (review_card cid d now (set_settings (Some s) w)) = Some r
  ∧ (d ≤ correct_threshold s0 →
       (repetition r0 = 0 → interval_days r = initial_interval s0)
       ∧ (repetition r0 = 1 → interval_days r = second_interval s0)
       ∧ repetition r = repetition r0 + 1)
  ∧ (correct_threshold s0 < d →
       interval_days r = lapse_min_interval s0 ∧ repetition r = 0)
  ∧ (d < correct_threshold s0 → (ease_factor r <= max_ease_factor s0)%Q)
  ∧ (correct_threshold s0 < d → (min_ease_factor s0 <= ease_factor r)%Q)
  ∧ (d = correct_threshold s0 → ease_factor r = ease_factor r0).
Proof.
  intros Hr Hres s0.
  destruct (decide (is_Some (flashcards w !! card_id r0))) as [Hfc|Hfc].
  - rewrite (review_card_stored cid d now w r0 Hr Hfc) in Hres.
    injection Hres as <-.
    split; [now rewrite (review_card_stored cid d now (set_settings (Some s) w)
                          r0 Hr Hfc)|].
    cbn [scheduled interval_days repetition ease_factor s0 default_settings
         correct_threshold initial_interval second_interval lapse_min_interval
         max_ease_factor min_ease_factor].
    unfold next_interval, next_repetition, was_correct, adjust_ease.
    split; [|split; [|split; [|split]]].
    + intros Hd. apply Z.leb_le in Hd. rewrite Hd.
      split; [|split]; [intros ->|intros ->|]; reflexivity.
    + intros Hd. apply Z.leb_gt in Hd. now rewrite Hd.
    + intros Hd. apply Z.ltb_lt in Hd. rewrite Hd. apply py_min_le_l.
    + intros Hd. assert ((d <? 3) = false) as -> by lia.
      assert ((d >? 3) = true) as -> by lia. apply py_max_ge_l.
    + intros ->. reflexivity.
  - exfalso. unfold review_card in Hres.
    rewrite (bind_returned _ _ _ _ _ (load_stored cid now w r0 Hr)) in Hres.
    unfold bind at 1 in Hres. rewrite upsert_refused in Hres; [done|].
    cbn [card_id scheduled].
    destruct (flashcards w !! card_id r0) eqn:E; [|done].
    exfalso. apply Hfc. by eexists.
Qed.

Lemma review_card_uses_default_constants_witness :
  let w := final_db (initialize_card "c" 0 (fresh_db {["c" := 0]} 0)) in
  let s := apply_patch (default_settings 0 0) (only_second_interval 10) 500 in
  let r0 := initial_review "c" 0 in
  let r := scheduled r0 2 1000 in
  let s0 := default_settings 0 0 in
  result (review_card "c" 2 1000 (set_settings (Some s) w)) = Some r
  ∧ (2 ≤ correct_threshold s0 →
       (repetition r0 = 0 → interval_days r = initial_interval s0)
       ∧ (repetition r0 = 1 → interval_days r = second_interval s0)
       ∧ repetition r = repetition r0 + 1)
  ∧ (correct_threshold s0 < 2 →
       interval_days r = lapse_min_interval s0 ∧ repetition r = 0)
  ∧ (2 < correct_threshold s0 → (ease_factor r <= max_ease_factor s0)%Q)
  ∧ (correct_threshold s0 < 2 → (min_ease_factor s0 <= ease_factor r)%Q)
  ∧ (2 = correct_threshold s0 → ease_factor r = ease_factor r0).
Proof.
  intros w s r0 r.
  apply (review_card_uses_default_constants w s "c" r0 2 1000 r).
  - vm_compute. reflexivity.
  - vm_compute. reflexivity.
Defined.

(** ** Settings updates *)

(** C8, at the input where the code breaks it: on the default profile the
    body [{"min_ease_factor": 2.8}] passes every check of the endpoint (the
    comparison with the maximum runs only when the body carries both) and
    is committed; the stored profile then has a minimum of 2.8 over a maximum
    of 2.5. *)
Theorem lone_min_ease_factor_is_committed_unchecked :
  let w := fresh_db ∅ 0 in
  let data := only_min_ease_factor 2.8 in
  ∃ s s',
    srs_settings w = Some s
    ∧ valid_settings s
    ∧ app.validation_errors data = []
    ∧ app.update_srs_settings data 1000 w
      = (app.Ok200 s', set_settings (Some s') w)
    ∧ (min_ease_factor s' == 2.8)%Q
    ∧ (max_ease_factor s' == 2.5)%Q
    ∧ ¬ valid_settings s'.
Proof.
  exists (default_settings 0 0).
  exists (apply_patch (default_settings 0 0) (only_min_ease_factor 2.8) 1000).
  split; [reflexivity|].
  split; [repeat split; vm_compute; (reflexivity || discriminate)|].
  split; [reflexivity|].
  split; [vm_compute; reflexivity|].
  split; [reflexivity|]. split; [reflexivity|].
  intros [Hlt _]. vm_compute in Hlt. discriminate.
Qed.

Lemma check_nil c msg : app.check c msg = [] → c = false.
Proof. now destruct c. Qed.

Lemma Qlt_bool_false a b : app.Qlt_bool a b = false → (b <= a)%Q.
Proof.
  unfold app.Qlt_bool. intros H. apply negb_false_iff in H.
  now apply Qle_bool_iff.
Qed.

Lemma Qle_bool_false a b : Qle_bool a b = false → (b < a)%Q.
Proof.
  intros H. apply Qnot_le_lt. intros Hle. apply Qle_bool_iff in Hle. congruence.
Qed.

(** What the checks do establish: an accepted body that carries both or
    neither field of each compared pair leaves a valid profile valid. *)
Lemma accepted_update_with_whole_pairs_is_valid w data now s s' :
  srs_settings w = Some s → valid_settings s →
  (is_Some (p_min_ease_factor data) ↔ is_Some (p_max_ease_factor data)) →
  (is_Some (p_correct_threshold data) ↔ is_Some (p_max_difficulty data)) →
  (app.update_srs_settings data now w).1 = app.Ok200 s' →
  valid_settings s'.
Proof.
  intros Hs (V1 & V2 & V3 & V4 & V5 & V6 & V7 & V8 & V9) Hease Hdiff.
  unfold app.update_srs_settings, app.guarded.
  destruct (app.no_keys data); [discriminate|].
  destruct (app.validation_errors data) eqn:E; [|discriminate].
  unfold db.update_srs_settings, bind, get_srs_settings, ret. rewrite Hs.
  cbn [default fst]. intros [= <-].
  unfold app.validation_errors in E.
  repeat (apply app_eq_nil in E; destruct E as [? E]).
  repeat match goal with H : app.check _ _ = [] |- _ =>
    apply check_nil in H end.
  unfold valid_settings.
  cbn [apply_patch min_ease_factor max_ease_factor initial_interval
       second_interval max_interval correct_threshold max_difficulty].
  destruct (p_min_ease_factor data) as [mn|], (p_max_ease_factor data) as [mx|];
    cbn [default from_option Datatypes.id] in *;
    try (exfalso;
         first [exact (is_Some_None (proj1 Hease (ex_intro _ _ eq_refl)))
               |exact (is_Some_None (proj2 Hease (ex_intro _ _ eq_refl)))]);
  destruct (p_correct_threshold data) as [ct|], (p_max_difficulty data) as [md|];
    cbn [default from_option Datatypes.id] in *;
    try (exfalso;
         first [exact (is_Some_None (proj1 Hdiff (ex_intro _ _ eq_refl)))
               |exact (is_Some_None (proj2 Hdiff (ex_intro _ _ eq_refl)))]);
  destruct (p_initial_interval data), (p_second_interval data),
    (p_max_interval data); cbn [default from_option Datatypes.id] in *;
  repeat match goal with
         | H : _ || _ = false |- _ => apply orb_false_iff in H; destruct H
         | H : app.Qlt_bool _ _ = false |- _ => apply Qlt_bool_false in H
         | H : Qle_bool _ _ = false |- _ => apply Qle_bool_false in H
         end;
  repeat split; first [assumption | lia].
Qed.

(** ** The counters *)

(** C9, counterexample: from the initial counters the adjustment
    [(total_reviews_delta, correct_answers_delta) = (0, 1)] gives one correct
    answer out of no review, and [(-1, 0)] after it takes a review away. *)
Lemma stats_adjustment_is_unchecked : ¬ stats_monotone_and_consistent.
Proof.
  intros H.
  destruct (H ∅ 0 [(StatsRequest 0 1, 1000)] (StatsRequest (-1) 0) 2000)
    as (_ & _ & Hc).
  vm_compute in Hc. now apply Hc.
Qed.

Lemma review_card_stored_orphan cid d now w r :
  srs_reviews w !! cid = Some r → flashcards w !! card_id r = None →
  review_card cid d now w = Raised IntegrityError w.
Proof.
  intros H Hfc. unfold review_card.
  rewrite (bind_returned _ _ _ _ _ (load_stored cid now w r H)).
  unfold bind. now rewrite upsert_refused.
Qed.

(** A call of [review_card] counts one review, or raises and counts none. *)
Lemma review_card_stats cid d now w :
  srs_stats (final_db (review_card cid d now w)) = srs_stats w
  ∨ srs_stats (final_db (review_card cid d now w))
    = count_review d now (srs_stats w).
Proof.
  destruct (srs_reviews w !! cid) as [r|] eqn:H.
  - destruct (flashcards w !! card_id r) as [t|] eqn:Hfc.
    + right. now rewrite (review_card_stored cid d now w r H) by by eexists.
    + left. now rewrite (review_card_stored_orphan cid d now w r H).
  - destruct (flashcards w !! cid) as [t|] eqn:Hfc.
    + right. now rewrite review_card_fresh by (done || by eexists).
    + left. now rewrite review_card_orphan.
Qed.

Lemma process_srs_review_stats cid d now w :
  let w' := (app.process_srs_review (Some cid) (Some d) now w).2 in
  srs_stats w' = srs_stats w
  ∨ srs_stats w' = count_review (app.map_ui_to_backend d) now (srs_stats w).
Proof.
  unfold app.process_srs_review, app.guarded.
  destruct (negb (app.truthy_string (Some cid))); [now left|].
  unfold bind. cbn [default from_option Datatypes.id].
  pose proof (review_card_stats cid (app.map_ui_to_backend d) now w) as Hs.
  destruct (review_card cid (app.map_ui_to_backend d) now w); exact Hs.
Qed.

Lemma preview_srs_review_stats cid d now w :
  srs_stats (app.preview_srs_review (Some cid) (Some d) now w).2 = srs_stats w.
Proof.
  unfold app.preview_srs_review, app.guarded.
  destruct ((d <? 1) || (d >? 5)); [done|].
  unfold bind.
  pose proof (preview_review_frame cid d now w) as (Hs & _).
  destruct (preview_review cid d now w); exact Hs.
Qed.

Lemma stats_endpoint_stats td cd now w :
  srs_stats (app.update_srs_stats_endpoint
               (app.mkStatsDelta (Some td) (Some cd)) now w).2
  = (λ s, mkStats (total_reviews s + td) (correct_answers s + cd) now)
      <$> srs_stats w.
Proof.
  unfold app.update_srs_stats_endpoint, app.guarded, bind, update_srs_stats.
  cbn [app.total_reviews_delta app.correct_answers_delta default from_option
       Datatypes.id].
  destruct (srs_stats w) eqn:E; cbn; [reflexivity | exact E].
Qed.

Section Counters.
Variables (req : Request) (now : Z) (w : Database).
Hypothesis Hreq : additive req.
Hypothesis Hinv : 0 ≤ correct_of w ≤ total_of w.

(** One additive request: nothing decreases, the invariant survives. *)
Lemma handle_additive :
  total_of w ≤ total_of (handle req now w)
  ∧ correct_of w ≤ correct_of (handle req now w)
  ∧ 0 ≤ correct_of (handle req now w) ≤ total_of (handle req now w).
Proof.
  unfold total_of, correct_of in *. destruct req as [cid d|cid d|td cd];
    cbn [handle].
  - destruct (process_srs_review_stats cid d now w) as [-> | ->]; [lia|].
    unfold count_review.
    destruct (srs_stats w); cbn in *; [destruct (was_correct _)|]; lia.
  - rewrite preview_srs_review_stats. lia.
  - rewrite stats_endpoint_stats. cbn in Hreq.
    destruct (srs_stats w); cbn in *; lia.
Qed.
End Counters.

Lemma serve_additive reqs : ∀ w,
  Forall (λ x, additive x.1) reqs →
  0 ≤ correct_of w ≤ total_of w →
  0 ≤ correct_of (serve reqs w) ≤ total_of (serve reqs w).
Proof.
  induction reqs as [|[req now] reqs IH]; intros w Hall Hinv; [done|].
  inversion_clear Hall. cbn [serve]. apply IH; [done|].
  now apply handle_additive.
Qed.

(** C9, amended: starting from the counters (0, 0) and as long as every
    stats adjustment satisfies
    [0 <= correct_answers_delta <= total_reviews_delta], no request (review,
    preview or adjustment) decreases [total_reviews] or [correct_answers],
    and [0 <= correct_answers <= total_reviews] holds throughout.  Reviews
    by themselves always satisfy this. *)
Theorem stats_monotone_under_additive_requests cards t0 reqs req now :
  Forall (λ x, additive x.1) reqs →
  additive req →
  let w := serve reqs (fresh_db cards t0) in
  let w' := handle req now w in
  total_of w ≤ total_of w' ∧ correct_of w ≤ correct_of w'
  ∧ 0 ≤ correct_of w ≤ total_of w.
Proof.
  intros Hall Hreq w w'.
  assert (Hinv : 0 ≤ correct_of w ≤ total_of w)
    by (apply serve_additive; [done|cbn; lia]).
  destruct (handle_additive req now w Hreq Hinv) as (Ht & Hc & _).
  auto.
Qed.

Lemma stats_monotone_under_additive_requests_witness :
  let w := serve [(ReviewRequest "c" 3, 1000); (StatsRequest 2 1, 2000)]
             (fresh_db {["c" := 0]} 0) in
  let w' := handle (ReviewRequest "c" 1) 3000 w in
  total_of w ≤ total_of w' ∧ correct_of w ≤ correct_of w'
  ∧ 0 ≤ correct_of w ≤ total_of w.
Proof.
  apply (stats_monotone_under_additive_requests {["c" := 0]} 0
           [(ReviewRequest "c" 3, 1000); (StatsRequest 2 1, 2000)]
           (ReviewRequest "c" 1) 3000).
  - repeat constructor; cbn; lia.
  - exact I.
Defined.

(** ** The due queue *)

#[global] Instance next_review_le_trans : Transitive next_review_le.
Proof. unfold next_review_le. intros a b c. lia. Qed.

#[global] Instance next_review_le_total : Total next_review_le.
Proof. unfold next_review_le. intros a b. lia. Qed.


Section DueQuery.
Variables (w : Database) (now : Z).

Lemma elem_of_due_sorted r :
  r ∈ due_sorted now w ↔ r ∈ review_rows w ∧ next_review r ≤ now.
Proof.
  unfold due_sorted. rewrite merge_sort_Permutation, list_elem_of_filter.
  tauto.
Qed.


Lemma sql_limit_prefix {A} limit (l : list A) :
  ∃ rest, l = sql_limit limit l ++ rest
          ∧ (rest ≠ [] → Z.of_nat (length (sql_limit limit l)) = limit).
Proof.
  unfold sql_limit. destruct (limit <? 0) eqn:E.
  - exists []. split; [now rewrite app_nil_r|done].
  - exists (drop (Z.to_nat limit) l). split; [now rewrite take_drop|].
    intros Hrest. rewrite length_take_le; [lia|].
    destruct (decide (Z.to_nat limit ≤ length l)%nat) as [|Hn]; [done|].
    exfalso. apply Hrest. apply drop_ge. lia.
Qed.


End DueQuery.



(** The query on a concrete table: of the rows due at 100, 500 and 9000 the
    limit 1 keeps the one due at 100; at time 1000 the third is never
    returned. *)
Example due_query_three_cards :
  let w := final_db ((initialize_card "a" 500 ;;ᴹ initialize_card "b" 100 ;;ᴹ
                      initialize_card "c" 9000)
                       (fresh_db {["a" := 0; "b" := 0; "c" := 0]} 0)) in
  result (get_cards_due_for_review 1 1000 w) = Some [initial_review "b" 100]
  ∧ result (get_cards_due_for_review 20 1000 w)
    = Some [initial_review "b" 100; initial_review "a" 500]
  ∧ result (get_cards_due_for_review (-1) 1000 w)
    = Some [initial_review "b" 100; initial_review "a" 500].
Proof. repeat split; vm_compute; reflexivity. Qed.

(** ** The day streak *)




Section Walk.
Variables (days : gset Z) (now : Z).


End Walk.




(** * Further properties *)

(** ** The scheduler *)

(** X1.  Every state a card can reach keeps its card id, has its streak
    equal to its repetition count, both non-negative, an ease factor of at
    most 2.5 and a rating between 1 and 5. *)
Theorem reachable_invariants cid r :
  reachable cid r →
  card_id r = cid
  ∧ streak r = repetition r
  ∧ 0 ≤ repetition r
  ∧ (ease_factor r <= MAX_EASE_FACTOR)%Q
  ∧ 1 ≤ difficulty r ≤ 5.
Proof.
  induction 1 as [now|r d now Hr (Hid & Hst & Hrep & Hease & Hd) Hrange].
  - repeat split; cbn; (done || lia || (vm_compute; discriminate)).
  - cbn [scheduled card_id streak repetition ease_factor difficulty].
    split; [done|]. unfold next_streak, next_repetition.
    split; [destruct (was_correct d); lia|].
    split; [destruct (was_correct d); lia|].
    split; [now apply adjust_ease_upper|lia].
Qed.

Lemma reachable_invariants_witness :
  let r := scheduled (scheduled (initial_review "c" 0) 2 1000) 5 2000 in
  card_id r = "c"
  ∧ streak r = repetition r
  ∧ 0 ≤ repetition r
  ∧ (ease_factor r <= MAX_EASE_FACTOR)%Q
  ∧ 1 ≤ difficulty r ≤ 5.
Proof.
  apply (reachable_invariants "c").
  apply reachable_review; [apply reachable_review|]; [constructor|lia|lia].
Defined.

Lemma schedule_all_bounds ratings : ∀ r,
  ease_within_bounds r → 1 ≤ interval_days r →
  Forall (λ x, 2 ≤ x.1 ≤ 5) ratings →
  Forall (λ r, ease_within_bounds r ∧ 1 ≤ interval_days r)
         (schedule_all r ratings).
Proof.
  induction ratings as [|[d now] ratings IH]; intros r [Hmin Hmax] Hi Hds;
    [constructor|].
  inversion_clear Hds as [|? ? Hd Hrest]. cbn [fst] in Hd.
  cbn [schedule_all].
  assert (Hb : ease_within_bounds (scheduled r d now)).
  { split; [apply adjust_ease_lower; [lia|done]|now apply adjust_ease_upper]. }
  assert (Hi' : 1 ≤ interval_days (scheduled r d now)).
  { cbn [scheduled interval_days]. apply next_interval_ge_1; [done|].
    destruct Hb as [Hb _]. cbn [scheduled ease_factor] in Hb.
    unfold MIN_EASE_FACTOR in Hb. lra. }
  constructor; [done|]. now apply IH.
Qed.

(** X2.  As long as the rating 1 is not used, every review of a freshly
    initialised card stores an ease factor within [1.3, 2.5] and an interval
    of at least one day. *)
Theorem ratings_above_one_keep_bounds cid t0 ratings w rows :
  Forall (λ x, 2 ≤ x.1 ≤ 5) ratings →
  result ((initialize_card cid t0 ;;ᴹ review_all cid ratings) w) = Some rows →
  Forall (λ r, ease_within_bounds r ∧ 1 ≤ interval_days r) rows.
Proof.
  intros Hds Hres.
  destruct (flashcards w !! cid) as [ts|] eqn:Hfc.
  - rewrite initialize_then_review_all in Hres by by eexists.
    injection Hres as <-. apply schedule_all_bounds; [|done|done].
    split; vm_compute; discriminate.
  - exfalso. unfold initialize_card in Hres.
    unfold bind at 1 in Hres. unfold bind at 1 in Hres.
    now rewrite upsert_refused in Hres.
Qed.

Lemma ratings_above_one_keep_bounds_witness :
  ∃ rows,
    result ((initialize_card "c" 0 ;;ᴹ
             review_all "c" [(2, 1000); (5, 2000); (3, 3000); (4, 4000)])
              (fresh_db {["c" := 0]} 0)) = Some rows
    ∧ Forall (λ r, ease_within_bounds r ∧ 1 ≤ interval_days r) rows.
Proof.
  eexists. split; [vm_compute; reflexivity|].
  eapply (ratings_above_one_keep_bounds "c" 0
            [(2, 1000); (5, 2000); (3, 3000); (4, 4000)]
            (fresh_db {["c" := 0]} 0)).
  - repeat constructor; cbn; lia.
  - vm_compute. reflexivity.
Defined.



(** X4.  POST /srs/review turns the UI scale around: 1..4 become 4..1 and
    every other value becomes 2.  The scheduler therefore never sees the
    rating 5 from this endpoint, and an answer counts as correct exactly when
    the UI value is not 1. *)
Theorem map_ui_to_backend_range d :
  1 ≤ app.map_ui_to_backend d ≤ 4
  ∧ (1 ≤ d ≤ 4 → app.map_ui_to_backend d = 5 - d)
  ∧ (¬ 1 ≤ d ≤ 4 → app.map_ui_to_backend d = 2)
  ∧ (was_correct (app.map_ui_to_backend d) = true ↔ d ≠ 1).
Proof.
  unfold app.map_ui_to_backend, was_correct.
  destruct (d =? 1) eqn:E1; [assert (d = 1) as -> by lia; cbn; lia|].
  destruct (d =? 2) eqn:E2; [assert (d = 2) as -> by lia; cbn; lia|].
  destruct (d =? 3) eqn:E3; [assert (d = 3) as -> by lia; cbn; lia|].
  destruct (d =? 4) eqn:E4; [assert (d = 4) as -> by lia; cbn; lia|].
  cbn. lia.
Qed.

Lemma map_ui_to_backend_range_witness :
  1 ≤ app.map_ui_to_backend 4 ≤ 4
  ∧ (1 ≤ 4 ≤ 4 → app.map_ui_to_backend 4 = 5 - 4)
  ∧ (¬ 1 ≤ 4 ≤ 4 → app.map_ui_to_backend 4 = 2)
  ∧ (was_correct (app.map_ui_to_backend 4) = true ↔ 4 ≠ 1).
Proof. apply (map_ui_to_backend_range 4). Defined.

(** ** Review and preview on the database *)

Lemma preview_review_result_stored cid d now w r :
  srs_reviews w !! cid = Some r →
  preview_review cid d now w
  = Returned
      {| p_card_id := cid;
         predicted_interval_days := interval_days (scheduled r d now);
         predicted_next_review := next_review (scheduled r d now);
         predicted_ease_factor := ease_factor (scheduled r d now);
         predicted_repetition := repetition (scheduled r d now);
         p_was_correct := was_correct d;
         p_difficulty := d;
         current := r;
         streak_if_correct := streak (scheduled r d now) |} w.
Proof.
  intros H. unfold preview_review.
  now rewrite (bind_returned _ _ _ _ _ (load_stored cid now w r H)).
Qed.

Lemma preview_review_result_fresh cid d now w :
  srs_reviews w !! cid = None → is_Some (flashcards w !! cid) →
  let r := initial_review cid now in
  preview_review cid d now w
  = Returned
      {| p_card_id := cid;
         predicted_interval_days := interval_days (scheduled r d now);
         predicted_next_review := next_review (scheduled r d now);
         predicted_ease_factor := ease_factor (scheduled r d now);
         predicted_repetition := repetition (scheduled r d now);
         p_was_correct := was_correct d;
         p_difficulty := d;
         current := r;
         streak_if_correct := streak (scheduled r d now) |}
      (set_reviews (insert cid r) w).
Proof.
  intros H Hfc r. unfold preview_review.
  now rewrite (bind_returned _ _ _ _ _ (load_fresh cid now w H Hfc)).
Qed.

(** X5.  What [preview_review] predicts is what [review_card] stores: when
    both return for the same card, rating and clock reading, the predicted
    interval, ease factor, repetition, due time and streak are those of the
    committed row. *)
Theorem preview_predicts_review w cid d now p r :
  result (preview_review cid d now w) = Some p →
  result (review_card cid d now w) = Some r →
  predicted_interval_days p = interval_days r
  ∧ predicted_ease_factor p = ease_factor r
  ∧ predicted_repetition p = repetition r
  ∧ predicted_next_review p = next_review r
  ∧ streak_if_correct p = streak r
  ∧ p_was_correct p = was_correct (difficulty r).
Proof.
  intros Hp Hr.
  destruct (srs_reviews w !! cid) as [r0|] eqn:H.
  - rewrite (preview_review_result_stored cid d now w r0 H) in Hp.
    injection Hp as <-.
    destruct (flashcards w !! card_id r0) as [ts|] eqn:Hfc.
    + rewrite (review_card_stored cid d now w r0 H) in Hr by by eexists.
      now injection Hr as <-.
    + now rewrite (review_card_stored_orphan cid d now w r0 H) in Hr.
  - destruct (flashcards w !! cid) as [ts|] eqn:Hfc.
    + rewrite preview_review_result_fresh in Hp by (done || by eexists).
      injection Hp as <-.
      rewrite review_card_fresh in Hr by (done || by eexists).
      now injection Hr as <-.
    + now rewrite review_card_orphan in Hr.
Qed.

Lemma preview_predicts_review_witness :
  let w := final_db (review_card "c" 2 1000 (fresh_db {["c" := 0]} 0)) in
  ∃ p r,
    result (preview_review "c" 1 2000 w) = Some p
    ∧ result (review_card "c" 1 2000 w) = Some r
    ∧ predicted_interval_days p = interval_days r
    ∧ predicted_ease_factor p = ease_factor r
    ∧ predicted_repetition p = repetition r
    ∧ predicted_next_review p = next_review r
    ∧ streak_if_correct p = streak r
    ∧ p_was_correct p = was_correct (difficulty r).
Proof.
  intros w. do 2 eexists.
  split; [vm_compute; reflexivity|]. split; [vm_compute; reflexivity|].
  apply (preview_predicts_review w "c" 1 2000); vm_compute; reflexivity.
Defined.



(** X7.  What a returning [review_card] changes: exactly the row of the card,
    which becomes the returned row, and the counters, which count one more
    review and one more correct answer when the rating is at most 3.  The
    flashcards, the settings and every other row stay. *)
Theorem review_card_commit w cid d now r :
  result (review_card cid d now w) = Some r →
  let w' := final_db (review_card cid d now w) in
  srs_reviews w' = <[card_id r := r]> (srs_reviews w)
  ∧ flashcards w' = flashcards w
  ∧ srs_settings w' = srs_settings w
  ∧ srs_stats w'
    = (λ s, mkStats (total_reviews s + 1)
                    (correct_answers s + (if d <=? 3 then 1 else 0)) now)
        <$> srs_stats w.
Proof.
  intros Hr w'. subst w'.
  destruct (srs_reviews w !! cid) as [r0|] eqn:H.
  - destruct (flashcards w !! card_id r0) as [ts|] eqn:Hfc.
    + rewrite (review_card_stored cid d now w r0 H) in Hr |- * by by eexists.
      now injection Hr as <-.
    + now rewrite (review_card_stored_orphan cid d now w r0 H) in Hr.
  - destruct (flashcards w !! cid) as [ts|] eqn:Hfc.
    + rewrite review_card_fresh in Hr |- * by (done || by eexists).
      injection Hr as <-. cbn [final_db committed set_stats set_reviews
        srs_reviews flashcards srs_settings srs_stats scheduled card_id
        initial_review].
      split; [apply insert_insert_eq|done].
    + now rewrite review_card_orphan in Hr.
Qed.

Lemma review_card_commit_witness :
  let w := fresh_db {["c" := 0]} 0 in
  let r := scheduled (initial_review "c" 1000) 2 1000 in
  let w' := final_db (review_card "c" 2 1000 w) in
  srs_reviews w' = <[card_id r := r]> (srs_reviews w)
  ∧ flashcards w' = flashcards w
  ∧ srs_settings w' = srs_settings w
  ∧ srs_stats w'
    = (λ s, mkStats (total_reviews s + 1)
                    (correct_answers s + (if 2 <=? 3 then 1 else 0)) 1000)
        <$> srs_stats w.
Proof.
  intros w r.
  apply (review_card_commit w "c" 2 1000 r). vm_compute. reflexivity.
Defined.

(** ** Referential integrity of the review table *)

Lemma preserves_ret {A} (a : A) : preserves (ret a).
Proof. now intros w Hw. Qed.

Lemma preserves_bind {A B} (m : M A) (k : A → M B) :
  preserves m → (∀ a, preserves (k a)) → preserves (bind m k).
Proof.
  intros Hm Hk w Hw. unfold bind. specialize (Hm w Hw).
  destruct (m w) as [a w'|e w']; [now apply Hk|done].
Qed.

(** A handler that turns an exception of [m] into a normal return. *)
Lemma preserves_caught {A B} (m : M A) (f : A → B) (b : B) :
  preserves m →
  preserves (fun w => match m w with
                      | Returned a w' => Returned (f a) w'
                      | Raised _ w' => Returned b w'
                      end).
Proof.
  intros Hm w Hw. specialize (Hm w Hw). now destruct (m w).
Qed.

Lemma preserves_reads {A} (f : Database → A) :
  preserves (fun w => Returned (f w) w).
Proof. now intros w Hw. Qed.

Lemma preserves_upsert review : preserves (upsert_srs_review review).
Proof.
  intros w Hw. unfold upsert_srs_review.
  destruct (decide _) as [Hfc|]; [|done].
  intros k r. cbn [final_db set_reviews srs_reviews flashcards].
  destruct (decide (card_id review = k)) as [<-|Hne].
  - rewrite lookup_insert_eq. now intros [= <-].
  - rewrite lookup_insert_ne by done. apply Hw.
Qed.

Lemma preserves_initialize cid now : preserves (initialize_card cid now).
Proof.
  unfold initialize_card. apply preserves_bind; [apply preserves_upsert|].
  intros _. apply preserves_ret.
Qed.

Lemma preserves_load cid now : preserves (load_or_initialize cid now).
Proof.
  unfold load_or_initialize. apply preserves_bind.
  - apply (preserves_reads (λ w, srs_reviews w !! cid)).
  - intros [r|]; [apply preserves_ret|apply preserves_initialize].
Qed.

Lemma preserves_stats td cd now : preserves (update_srs_stats td cd now).
Proof.
  intros w Hw. unfold update_srs_stats. now destruct (srs_stats w).
Qed.

Lemma preserves_review_card cid d now : preserves (review_card cid d now).
Proof.
  unfold review_card. apply preserves_bind; [apply preserves_load|].
  intros r. apply preserves_bind; [apply preserves_upsert|].
  intros _. apply preserves_bind; [apply preserves_stats|].
  intros _. apply preserves_ret.
Qed.

Lemma preserves_preview_review cid d now : preserves (preview_review cid d now).
Proof.
  unfold preview_review. apply preserves_bind; [apply preserves_load|].
  intros r. apply preserves_ret.
Qed.

Lemma preserves_insert_flashcard cid ts : preserves (insert_flashcard cid ts).
Proof.
  intros w Hw k r. unfold insert_flashcard.
  cbn [final_db set_flashcards srs_reviews flashcards].
  destruct (flashcards w !! cid) as [old|] eqn:Hfc;
    cbn [set_reviews srs_reviews flashcards]; intros Hk.
  - destruct (decide (cid = k)) as [<-|Hne];
      [now rewrite lookup_delete_eq in Hk|].
    rewrite lookup_delete_ne in Hk by done. rewrite lookup_insert_ne by done.
    now apply Hw.
  - destruct (Hw k r Hk) as [Hid Hsome]. split; [done|].
    destruct (decide (cid = k)) as [<-|Hne];
      [rewrite lookup_insert_eq; by eexists|].
    now rewrite lookup_insert_ne.
Qed.

Lemma preserves_db_delete_flashcard cid : preserves (db_delete_flashcard cid).
Proof.
  intros w Hw k r. unfold db_delete_flashcard.
  destruct (flashcards w !! cid) as [old|] eqn:Hfc; [|apply Hw].
  cbn [final_db set_flashcards set_reviews srs_reviews flashcards]. intros Hk.
  destruct (decide (cid = k)) as [<-|Hne];
    [now rewrite lookup_delete_eq in Hk|].
  rewrite lookup_delete_ne in Hk by done. rewrite lookup_delete_ne by done.
  now apply Hw.
Qed.

Lemma preserves_db_delete_srs_review cid : preserves (db_delete_srs_review cid).
Proof.
  intros w Hw k r. unfold db_delete_srs_review.
  destruct (srs_reviews w !! cid) as [old|] eqn:Hr; [|apply Hw].
  cbn [final_db set_reviews srs_reviews flashcards]. intros Hk.
  destruct (decide (cid = k)) as [<-|Hne];
    [now rewrite lookup_delete_eq in Hk|].
  rewrite lookup_delete_ne in Hk by done. now apply Hw.
Qed.

Lemma preserves_delete_flashcard cid : preserves (delete_flashcard cid).
Proof.
  unfold delete_flashcard. apply preserves_bind.
  - apply (preserves_reads (λ w, flashcards w !! cid)).
  - intros [ts|]; [|apply preserves_ret].
    apply preserves_bind; [apply preserves_db_delete_flashcard|].
    intros deleted.
    apply (preserves_caught _ (λ _, deleted) deleted).
    apply preserves_bind.
    + apply (preserves_reads (λ w, srs_reviews w !! cid)).
    + intros [r|]; [|apply preserves_ret].
      apply preserves_bind; [apply preserves_db_delete_srs_review|].
      intros _. apply preserves_ret.
Qed.

Lemma preserves_backfill recent : ∀ seeded limit now,
  preserves (app.backfill recent seeded limit now).
Proof.
  induction recent as [|fc recent IH]; intros seeded limit now;
    cbn [app.backfill]; [apply preserves_ret|].
  apply preserves_bind.
  - apply (preserves_reads (λ w, srs_reviews w !! fc)).
  - intros [r|]; [apply IH|].
    apply preserves_bind; [apply preserves_initialize|].
    intros _. destruct (_ >=? _); [apply preserves_ret|apply IH].
Qed.

Lemma guarded_final {A} (m : M (app.Response A)) w :
  (app.guarded m w).2 = final_db (m w).
Proof. unfold app.guarded. now destruct (m w). Qed.

Lemma fresh_db_consistent cards now : consistent (fresh_db cards now).
Proof. intros k r. cbn. now rewrite lookup_empty. Qed.

Lemma perform_consistent op now w :
  consistent w → consistent (perform op now w).
Proof.
  intros Hw. destruct op as [cid ts|cid|data|cid d|cid d|limit|data|data|];
    cbn [perform].
  - unfold create_flashcard.
    pose proof (preserves_bind (insert_flashcard cid ts)
                  (λ _ w, match initialize_card cid now w with
                          | Returned _ w' => Returned tt w'
                          | Raised _ w' => Returned tt w'
                          end)
                  (preserves_insert_flashcard cid ts)
                  (λ _, preserves_caught (initialize_card cid now)
                          (λ _, tt) tt (preserves_initialize cid now))
                  w Hw) as H.
    now destruct (bind _ _ w).
  - unfold delete_flashcard_endpoint.
    pose proof (preserves_delete_flashcard cid w Hw) as H.
    now destruct (delete_flashcard cid w).
  - unfold create_or_update_srs_review. rewrite guarded_final.
    revert w Hw. fold (preserves
      (match b_card_id data, b_interval_days data, b_ease_factor data,
             b_repetition data, b_next_review data, b_last_review data,
             b_difficulty data with
       | Some cid, Some i, Some e, Some rep, Some nr, Some lr, Some d =>
           upsert_srs_review
             (mkReview cid i e rep nr lr d (default 0 (b_streak data))) ;;ᴹ
           ret (app.Ok200 tt)
       | None, _, _, _, _, _, _ =>
           ret (app.BadRequest400 ["Missing field: card_id"])
       | _, None, _, _, _, _, _ =>
           ret (app.BadRequest400 ["Missing field: interval_days"])
       | _, _, None, _, _, _, _ =>
           ret (app.BadRequest400 ["Missing field: ease_factor"])
       | _, _, _, None, _, _, _ =>
           ret (app.BadRequest400 ["Missing field: repetition"])
       | _, _, _, _, None, _, _ =>
           ret (app.BadRequest400 ["Missing field: next_review"])
       | _, _, _, _, _, None, _ =>
           ret (app.BadRequest400 ["Missing field: last_review"])
       | _, _, _, _, _, _, None =>
           ret (app.BadRequest400 ["Missing field: difficulty"])
       end)).
    destruct (b_card_id data), (b_interval_days data), (b_ease_factor data),
      (b_repetition data), (b_next_review data), (b_last_review data),
      (b_difficulty data); try apply preserves_ret.
    apply preserves_bind; [apply preserves_upsert|].
    intros _. apply preserves_ret.
  - unfold app.process_srs_review. rewrite guarded_final. revert w Hw.
    match goal with |- ∀ w, consistent w → consistent (final_db (?m w)) =>
      change (preserves m) end.
    destruct (negb _); [apply preserves_ret|].
    destruct d as [d|]; [|apply preserves_ret].
    apply preserves_bind; [apply preserves_review_card|].
    intros r. apply preserves_ret.
  - unfold app.preview_srs_review. rewrite guarded_final. revert w Hw.
    match goal with |- ∀ w, consistent w → consistent (final_db (?m w)) =>
      change (preserves m) end.
    destruct cid as [cid|], d as [d|]; try apply preserves_ret.
    destruct (_ || _); [apply preserves_ret|].
    apply preserves_bind; [apply preserves_preview_review|].
    intros r. apply preserves_ret.
  - unfold app.list_cards_due. rewrite guarded_final. revert w Hw.
    match goal with |- ∀ w, consistent w → consistent (final_db (?m w)) =>
      change (preserves m) end.
    apply preserves_bind;
      [apply (preserves_reads (λ w, sql_limit limit (due_sorted now w)))|].
    intros [|c cards]; [|apply preserves_ret].
    apply (preserves_caught _ (λ cards, app.Ok200 cards) (app.Ok200 [])).
    apply preserves_bind;
      [unfold get_flashcards; apply (preserves_reads (λ w, _))|].
    intros recent. apply preserves_bind; [apply preserves_backfill|].
    intros seeded. destruct (_ >? _); [|apply preserves_ret].
    apply (preserves_reads (λ w, sql_limit limit (due_sorted now w))).
  - unfold app.update_srs_stats_endpoint. rewrite guarded_final. revert w Hw.
    match goal with |- ∀ w, consistent w → consistent (final_db (?m w)) =>
      change (preserves m) end.
    destruct (app.total_reviews_delta data), (app.correct_answers_delta data);
      try apply preserves_ret;
      (apply preserves_bind; [apply preserves_stats|intros _; apply preserves_ret]).
  - unfold app.update_srs_settings. rewrite guarded_final. revert w Hw.
    match goal with |- ∀ w, consistent w → consistent (final_db (?m w)) =>
      change (preserves m) end.
    destruct (app.no_keys data); [apply preserves_ret|].
    destruct (app.validation_errors data); [|apply preserves_ret].
    apply preserves_bind; [|intros s; apply preserves_ret].
    unfold db.update_srs_settings. apply preserves_bind.
    + unfold get_srs_settings. apply (preserves_reads (λ w, _)).
    + intros s w Hw. exact Hw.
  - unfold reset_srs_settings. rewrite guarded_final. revert w Hw.
    match goal with |- ∀ w, consistent w → consistent (final_db (?m w)) =>
      change (preserves m) end.
    apply preserves_bind; [|intros s; apply preserves_ret].
    intros w Hw. exact Hw.
Qed.

(** X8.  Referential integrity: starting from an empty review table, after
    any sequence of flashcard, review, preview, due, stats and settings
    requests every review row is stored under its own card id and belongs to
    an existing flashcard. *)
Theorem review_table_stays_consistent cards t0 ops :
  consistent (perform_all ops (fresh_db cards t0)).
Proof.
  generalize (fresh_db_consistent cards t0).
  generalize (fresh_db cards t0) as w.
  induction ops as [|[op now] ops IH]; intros w Hw; [done|].
  cbn [perform_all]. apply IH. now apply perform_consistent.
Qed.



(** ** Flashcards *)

Lemma elem_of_review_rows w r :
  r ∈ review_rows w ↔ ∃ k, srs_reviews w !! k = Some r.
Proof.
  unfold review_rows. rewrite list_elem_of_fmap. split.
  - intros ([k r'] & -> & Hin). exists k. now apply elem_of_map_to_list.
  - intros [k Hk]. exists (k, r). split; [done|].
    now apply elem_of_map_to_list.
Qed.

(** X10.  POST /flashcards always answers 201; it stores the flashcard and
    gives the card the default review row, replacing whatever review state a
    card of that id had, so that the card is due from that moment on.  The
    counters, the settings and the rows of other cards stay. *)
Theorem create_flashcard_resets_review cid ts now w :
  let w' := (create_flashcard cid ts now w).2 in
  (create_flashcard cid ts now w).1 = Created201
  ∧ flashcards w' = <[cid := ts]> (flashcards w)
  ∧ srs_reviews w' = <[cid := initial_review cid now]> (srs_reviews w)
  ∧ srs_stats w' = srs_stats w
  ∧ srs_settings w' = srs_settings w
  ∧ ∀ t, now ≤ t → initial_review cid now ∈ due_sorted t w'.
Proof.
  assert (Heq : create_flashcard cid ts now w
                = (Created201,
                   mkDb (<[cid := ts]> (flashcards w))
                        (<[cid := initial_review cid now]> (srs_reviews w))
                        (srs_stats w) (srs_settings w))).
  { unfold create_flashcard, bind, insert_flashcard, initialize_card, bind.
    rewrite upsert_returns
      by (cbn [set_flashcards flashcards initial_review card_id];
          rewrite lookup_insert_eq; by eexists).
    unfold ret. f_equal.
    destruct (flashcards w !! cid);
      unfold set_reviews, set_flashcards;
      cbn [srs_reviews flashcards srs_stats srs_settings initial_review
           card_id];
      [now rewrite insert_delete_eq|done]. }
  rewrite Heq. cbn [fst snd flashcards srs_reviews srs_stats srs_settings].
  repeat split.
  intros t Ht. apply elem_of_due_sorted. split; [|done].
  apply elem_of_review_rows. exists cid. apply lookup_insert_eq.
Qed.

Lemma create_flashcard_resets_review_witness :
  let w := final_db (review_card "c" 2 1000 (fresh_db {["c" := 0]} 0)) in
  let w' := (create_flashcard "c" 5 2000 w).2 in
  (create_flashcard "c" 5 2000 w).1 = Created201
  ∧ flashcards w' = <["c" := 5]> (flashcards w)
  ∧ srs_reviews w' = <["c" := initial_review "c" 2000]> (srs_reviews w)
  ∧ srs_stats w' = srs_stats w
  ∧ srs_settings w' = srs_settings w
  ∧ ∀ t, 2000 ≤ t → initial_review "c" 2000 ∈ due_sorted t w'.
Proof. intros w. apply (create_flashcard_resets_review "c" 5 2000 w). Defined.

(** X11.  After a review that schedules at least one day ahead, the card is
    in no due list asked for before its [next_review], and it is among the
    due rows from [next_review] on. *)
Theorem reviewed_card_waits_until_next_review w cid d now r :
  consistent w →
  result (review_card cid d now w) = Some r →
  let w' := final_db (review_card cid d now w) in
  (∀ limit t cards c,
     t < next_review r →
     result (get_cards_due_for_review limit t w') = Some cards →
     c ∈ cards → card_id c ≠ card_id r)
  ∧ (∀ t, next_review r ≤ t → r ∈ due_sorted t w').
Proof.
  intros Hw Hr w'.
  assert (Hw' : consistent w') by now apply preserves_review_card.
  destruct (review_card_commit w cid d now r Hr) as (Hrows & _).
  fold w' in Hrows.
  assert (Hrow : srs_reviews w' !! card_id r = Some r)
    by (rewrite Hrows; apply lookup_insert_eq).
  split.
  - intros limit t cards c Ht [= <-] Hc Hid.
    destruct (sql_limit_prefix limit (due_sorted t w')) as (rest & Hsplit & _).
    assert (Hin : c ∈ due_sorted t w')
      by (rewrite Hsplit; apply elem_of_app; now left).
    apply elem_of_due_sorted in Hin as [Hin Hdue].
    apply elem_of_review_rows in Hin as [k Hk].
    destruct (Hw' k c Hk) as [Hkey _].
    assert (c = r) as -> by congruence. lia.
  - intros t Ht. apply elem_of_due_sorted. split; [|done].
    apply elem_of_review_rows. eauto.
Qed.

Lemma reviewed_card_waits_until_next_review_witness :
  let w := fresh_db {["c" := 0]} 0 in
  let r := scheduled (initial_review "c" 1000) 2 1000 in
  let w' := final_db (review_card "c" 2 1000 w) in
  (∀ limit t cards c,
     t < next_review r →
     result (get_cards_due_for_review limit t w') = Some cards →
     c ∈ cards → card_id c ≠ card_id r)
  ∧ (∀ t, next_review r ≤ t → r ∈ due_sorted t w').
Proof.
  intros w r.
  apply (reviewed_card_waits_until_next_review w "c" 2 1000 r).
  - apply fresh_db_consistent.
  - vm_compute. reflexivity.
Defined.

(** X12.  Deleting a flashcard: for an unknown id the service returns false
    and changes nothing; for a known id it returns true, and afterwards
    neither the flashcard nor a review row of that id is left, while all
    other flashcards and rows, the counters and the settings stay. *)
Theorem delete_flashcard_removes_review cid w :
  (flashcards w !! cid = None → delete_flashcard cid w = Returned false w)
  ∧ (is_Some (flashcards w !! cid) →
     delete_flashcard cid w
     = Returned true
         (mkDb (delete cid (flashcards w)) (delete cid (srs_reviews w))
               (srs_stats w) (srs_settings w))).
Proof.
  unfold delete_flashcard, bind, db_get_flashcard. split.
  - now intros ->.
  - intros [ts Hfc]. rewrite Hfc. unfold db_delete_flashcard. rewrite Hfc.
    unfold get_srs_review.
    cbn [set_flashcards set_reviews srs_reviews flashcards srs_stats
         srs_settings].
    now rewrite lookup_delete_eq.
Qed.

Lemma delete_flashcard_removes_review_witness :
  let w := final_db (review_card "c" 2 1000 (fresh_db {["c" := 0]} 0)) in
  delete_flashcard "c" w
  = Returned true
      (mkDb (delete "c" (flashcards w)) (delete "c" (srs_reviews w))
            (srs_stats w) (srs_settings w)).
Proof.
  intros w. apply (delete_flashcard_removes_review "c" w).
  vm_compute. eauto.
Defined.

(** X13.  Creating a card that was not there and deleting it again restores
    the database: flashcards, review rows, counters and settings. *)
Theorem create_then_delete_restores cid ts now w :
  flashcards w !! cid = None →
  srs_reviews w !! cid = None →
  delete_flashcard_endpoint cid (create_flashcard cid ts now w).2
  = (Deleted200, w).
Proof.
  intros Hfc Hr.
  destruct (create_flashcard_resets_review cid ts now w)
    as (_ & Hf & Hrows & Hs & Hset & _).
  set (w' := (create_flashcard cid ts now w).2) in *.
  unfold delete_flashcard_endpoint.
  destruct (delete_flashcard_removes_review cid w') as [_ Hdel].
  rewrite Hdel by (rewrite Hf, lookup_insert_eq; by eexists).
  rewrite Hf, Hrows, Hs, Hset, !delete_insert_id by done.
  now destruct w.
Qed.

Lemma create_then_delete_restores_witness :
  delete_flashcard_endpoint "n"
    (create_flashcard "n" 7 1000 (fresh_db {["c" := 0]} 0)).2
  = (Deleted200, fresh_db {["c" := 0]} 0).
Proof.
  apply (create_then_delete_restores "n" 7 1000 (fresh_db {["c" := 0]} 0));
    vm_compute; reflexivity.
Defined.

(** ** The due endpoint and its backfill *)


Lemma initialize_card_returns cid now w :
  is_Some (flashcards w !! cid) →
  initialize_card cid now w
  = Returned (initial_review cid now)
      (set_reviews (insert cid (initial_review cid now)) w).
Proof.
  intros Hfc. unfold initialize_card, bind. now rewrite upsert_returns.
Qed.

Lemma initialize_card_refused cid now w :
  flashcards w !! cid = None →
  initialize_card cid now w = Raised IntegrityError w.
Proof.
  intros Hfc. unfold initialize_card, bind. now rewrite upsert_refused.
Qed.

Section Backfill.
Variables (limit now : Z).

Lemma backfill_cons fc recent seeded w :
  app.backfill (fc :: recent) seeded limit now w
  = match srs_reviews w !! fc with
    | Some _ => app.backfill recent seeded limit now w
    | None =>
        match initialize_card fc now w with
        | Returned _ w1 =>
            if seeded + 1 >=? limit then Returned (seeded + 1) w1
            else app.backfill recent (seeded + 1) limit now w1
        | Raised e w1 => Raised e w1
        end
    end.
Proof.
  cbn [app.backfill]. unfold bind at 1, get_srs_review.
  destruct (srs_reviews w !! fc); [done|].
  unfold bind. destruct (initialize_card fc now w); [|done].
  now destruct (_ >=? _).
Qed.

(** What the seeding loop can change, whether it returns or raises. *)
Lemma backfill_frame recent : ∀ seeded w,
  let w' := final_db (app.backfill recent seeded limit now w) in
  flashcards w' = flashcards w
  ∧ srs_stats w' = srs_stats w
  ∧ srs_settings w' = srs_settings w
  ∧ (∀ k r, srs_reviews w !! k = Some r → srs_reviews w' !! k = Some r)
  ∧ (∀ k r, srs_reviews w' !! k = Some r →
       srs_reviews w !! k = Some r
       ∨ (r = initial_review k now ∧ srs_reviews w !! k = None
          ∧ is_Some (flashcards w !! k))).
Proof.
  induction recent as [|fc recent IH]; intros seeded w w'; subst w'.
  - cbn. repeat split; auto.
  - rewrite backfill_cons.
    destruct (srs_reviews w !! fc) as [r0|] eqn:Hfc; [apply IH|].
    destruct (flashcards w !! fc) as [ts|] eqn:Hcard.
    + rewrite initialize_card_returns by by eexists.
      set (w1 := set_reviews (insert fc (initial_review fc now)) w).
      assert (H1 : ∀ k r, srs_reviews w !! k = Some r →
                          srs_reviews w1 !! k = Some r).
      { intros k r Hk. subst w1. cbn.
        rewrite lookup_insert_ne; [done|]. intros <-. congruence. }
      assert (H2 : ∀ k r, srs_reviews w1 !! k = Some r →
                srs_reviews w !! k = Some r
                ∨ (r = initial_review k now ∧ srs_reviews w !! k = None
                   ∧ is_Some (flashcards w !! k))).
      { intros k r. subst w1. cbn.
        destruct (decide (fc = k)) as [<-|Hne].
        - rewrite lookup_insert_eq. intros [= <-]. right.
          repeat split; [done|by eexists].
        - rewrite lookup_insert_ne by done. now left. }
      destruct (_ >=? _).
      * cbn [final_db]. repeat split; auto.
      * destruct (IH (seeded + 1) w1) as (Hf & Hs & Hset & Hkeep & Hnew).
        split; [exact Hf|]. split; [exact Hs|]. split; [exact Hset|].
        split; [intros k r Hk; apply Hkeep, H1, Hk|].
        intros k r Hk. destruct (Hnew k r Hk) as [Hold|(-> & Hnone & Hsome)].
        -- now apply H2.
        -- right. split; [done|]. split; [|exact Hsome].
           destruct (srs_reviews w !! k) as [r'|] eqn:E; [|done].
           apply H1 in E. congruence.
    + rewrite initialize_card_refused by done. cbn. repeat split; auto.
Qed.

(** When every listed card has a flashcard the loop returns, and it has
    seeded a row as soon as one listed card had none. *)
Lemma backfill_seeds recent : ∀ seeded w,
  (∀ fc, fc ∈ recent → is_Some (flashcards w !! fc)) →
  ∃ seeded' w',
    app.backfill recent seeded limit now w = Returned seeded' w'
    ∧ seeded ≤ seeded'
    ∧ ((∃ fc, fc ∈ recent ∧ srs_reviews w !! fc = None) →
       seeded < seeded'
       ∧ ∃ fc, srs_reviews w' !! fc = Some (initial_review fc now)).
Proof.
  induction recent as [|fc recent IH]; intros seeded w Hcards.
  - exists seeded, w. split; [done|]. split; [lia|].
    intros (fc & Hin & _). now apply not_elem_of_nil in Hin.
  - rewrite backfill_cons.
    destruct (srs_reviews w !! fc) as [r0|] eqn:Hfc.
    + destruct (IH seeded w) as (seeded' & w' & Heq & Hle & Hseed).
      { intros fc' Hin. apply Hcards. now right. }
      exists seeded', w'. split; [done|]. split; [done|].
      intros (fc' & Hin & Hnone). apply Hseed. exists fc'. split; [|done].
      apply elem_of_cons in Hin as [->|Hin]; [congruence|done].
    + rewrite initialize_card_returns by (apply Hcards; now left).
      set (w1 := set_reviews (insert fc (initial_review fc now)) w).
      assert (Hrow : srs_reviews w1 !! fc = Some (initial_review fc now))
        by apply lookup_insert_eq.
      destruct (_ >=? _).
      * exists (seeded + 1), w1. split; [done|]. split; [lia|].
        intros _. split; [lia|eauto].
      * destruct (IH (seeded + 1) w1) as (seeded' & w' & Heq & Hle & _).
        { intros fc' Hin. apply Hcards. now right. }
        exists seeded', w'. split; [done|]. split; [lia|].
        intros _. split; [lia|]. exists fc.
        pose proof (backfill_frame recent (seeded + 1) w1)
          as (_ & _ & _ & Hk & _).
        rewrite Heq in Hk. now apply Hk.
Qed.
End Backfill.

Lemma get_flashcards_listed limit w recent fc :
  result (get_flashcards limit w) = Some recent →
  fc ∈ recent → is_Some (flashcards w !! fc).
Proof.
  unfold get_flashcards. intros [= <-] Hin.
  apply list_elem_of_fmap in Hin as ([k ts] & -> & Hin).
  assert (Hsorted : (k, ts) ∈ merge_sort timestamp_ge
                                 (map_to_list (flashcards w))).
  { destruct limit as [l|]; [|done].
    destruct (l =? 0); [done|].
    destruct (sql_limit_prefix l (merge_sort timestamp_ge
                                    (map_to_list (flashcards w))))
      as (rest & Hsplit & _).
    rewrite Hsplit. apply elem_of_app. now left. }
  rewrite merge_sort_Permutation in Hsorted.
  apply elem_of_map_to_list in Hsorted. by eexists.
Qed.

(** The handler of GET /srs/due, case by case. *)
Lemma list_cards_due_eq limit now w :
  app.list_cards_due limit now w
  = match sql_limit limit (due_sorted now w) with
    | c :: cards => (app.Ok200 (c :: cards), w)
    | [] =>
        match app.backfill (default [] (result (get_flashcards (Some limit) w)))
                0 limit now w with
        | Returned seeded w' =>
            (app.Ok200 (if seeded >? 0
                        then sql_limit limit (due_sorted now w') else []), w')
        | Raised _ w' => (app.Ok200 [], w')
        end
    end.
Proof.
  unfold app.list_cards_due, app.guarded, bind, get_cards_due_for_review,
    get_flashcards, ret.
  cbn [result default from_option Datatypes.id].
  destruct (sql_limit limit (due_sorted now w)) eqn:E; [|done].
  destruct (app.backfill _ 0 limit now w) as [seeded w'|e w']; [|done].
  now destruct (seeded >? 0).
Qed.

Lemma list_cards_due_final limit now w :
  (app.list_cards_due limit now w).2 = w
  ∨ ∃ recent seeded,
      result (get_flashcards (Some limit) w) = Some recent
      ∧ (app.list_cards_due limit now w).2
        = final_db (app.backfill recent seeded limit now w).
Proof.
  rewrite list_cards_due_eq.
  destruct (sql_limit limit (due_sorted now w)); [|now left].
  right. eexists _, 0. split; [reflexivity|].
  cbn [result default from_option Datatypes.id].
  now destruct (app.backfill _ 0 limit now w).
Qed.

(** X15.  GET /srs/due never alters or removes a review row and leaves the
    flashcards, the counters and the settings alone.  A row it adds is the
    default row of a flashcard that had no row. *)
Theorem list_cards_due_only_seeds limit now w :
  let w' := (app.list_cards_due limit now w).2 in
  flashcards w' = flashcards w
  ∧ srs_stats w' = srs_stats w
  ∧ srs_settings w' = srs_settings w
  ∧ (∀ k r, srs_reviews w !! k = Some r → srs_reviews w' !! k = Some r)
  ∧ (∀ k r, srs_reviews w' !! k = Some r →
       srs_reviews w !! k = Some r
       ∨ (r = initial_review k now ∧ srs_reviews w !! k = None
          ∧ is_Some (flashcards w !! k))).
Proof.
  destruct (list_cards_due_final limit now w)
    as [-> | (recent & seeded & _ & ->)].
  - repeat split; auto.
  - apply backfill_frame.
Qed.

Lemma list_cards_due_only_seeds_witness :
  let w := final_db (review_card "a" 2 1000 (fresh_db {["a" := 5; "b" := 7]} 0)) in
  let w' := (app.list_cards_due 5 2000 w).2 in
  flashcards w' = flashcards w
  ∧ srs_stats w' = srs_stats w
  ∧ srs_settings w' = srs_settings w
  ∧ (∀ k r, srs_reviews w !! k = Some r → srs_reviews w' !! k = Some r)
  ∧ (∀ k r, srs_reviews w' !! k = Some r →
       srs_reviews w !! k = Some r
       ∨ (r = initial_review k 2000 ∧ srs_reviews w !! k = None
          ∧ is_Some (flashcards w !! k))).
Proof. intros w. apply (list_cards_due_only_seeds 5 2000 w). Defined.

Lemma sql_limit_nil {A} limit (l : list A) :
  1 ≤ limit → sql_limit limit l = [] → l = [].
Proof.
  unfold sql_limit. intros Hl. assert ((limit <? 0) = false) as -> by lia.
  destruct l as [|x l]; [done|].
  destruct (Z.to_nat limit) eqn:E; [lia|discriminate].
Qed.

(** X16.  The backfill does its job: when nothing is due, [limit] is at
    least 1 and one of the [limit] newest flashcards has no review row, GET
    /srs/due answers with a non-empty list, and every row of it is the
    default row of a card that had none. *)
Theorem backfill_makes_new_cards_due limit now w recent fc :
  1 ≤ limit →
  result (get_cards_due_for_review limit now w) = Some [] →
  result (get_flashcards (Some limit) w) = Some recent →
  fc ∈ recent → srs_reviews w !! fc = None →
  ∃ c cards,
    (app.list_cards_due limit now w).1 = app.Ok200 (c :: cards)
    ∧ ∀ r, r ∈ c :: cards →
           ∃ k, r = initial_review k now ∧ srs_reviews w !! k = None
                ∧ is_Some (flashcards w !! k).
Proof.
  intros Hlimit Hdue Hrecent Hin Hnone.
  assert (Hempty : due_sorted now w = []).
  { injection Hdue as Hdue. now apply (sql_limit_nil limit). }
  destruct (backfill_seeds limit now recent 0 w)
    as (seeded & w' & Heq & _ & Hseed).
  { intros fc' Hfc'. now apply (get_flashcards_listed (Some limit) w recent). }
  destruct Hseed as [Hpos (fc' & Hrow)]; [eauto|].
  pose proof (backfill_frame limit now recent 0 w) as (_ & _ & _ & _ & Hnew).
  rewrite Heq in Hnew. cbn [final_db] in Hnew.
  assert (Hresp : (app.list_cards_due limit now w).1
                  = app.Ok200 (sql_limit limit (due_sorted now w'))).
  { rewrite list_cards_due_eq, Hempty.
    assert (sql_limit limit (@nil ReviewState) = []) as ->
      by (unfold sql_limit; destruct (limit <? 0); [done|apply take_nil]).
    rewrite Hrecent. cbn [default from_option Datatypes.id]. rewrite Heq.
    now assert ((seeded >? 0) = true) as -> by lia. }
  assert (Hall : ∀ r, r ∈ due_sorted now w' →
            ∃ k, r = initial_review k now ∧ srs_reviews w !! k = None
                 ∧ is_Some (flashcards w !! k)).
  { intros r Hr. apply elem_of_due_sorted in Hr as [Hr Hd].
    apply elem_of_review_rows in Hr as [k Hk].
    destruct (Hnew k r Hk) as [Hold|(-> & ? & ?)]; [|eauto].
    exfalso. assert (Hr : r ∈ due_sorted now w).
    { apply elem_of_due_sorted. split; [|done].
      apply elem_of_review_rows. eauto. }
    rewrite Hempty in Hr. now apply not_elem_of_nil in Hr. }
  destruct (sql_limit limit (due_sorted now w')) as [|c cards] eqn:E.
  - exfalso. apply sql_limit_nil in E; [|done].
    assert (Hr : initial_review fc' now ∈ due_sorted now w').
    { apply elem_of_due_sorted. split; [|cbn; lia].
      apply elem_of_review_rows. eauto. }
    rewrite E in Hr. now apply not_elem_of_nil in Hr.
  - exists c, cards. split; [done|].
    intros r Hr. apply Hall.
    destruct (sql_limit_prefix limit (due_sorted now w'))
      as (rest & Hsplit & _).
    rewrite Hsplit, E. apply elem_of_app. now left.
Qed.

Lemma backfill_makes_new_cards_due_witness :
  let w := fresh_db {["a" := 5; "b" := 7]} 0 in
  ∃ c cards,
    (app.list_cards_due 1 1000 w).1 = app.Ok200 (c :: cards)
    ∧ ∀ r, r ∈ c :: cards →
           ∃ k, r = initial_review k 1000 ∧ srs_reviews w !! k = None
                ∧ is_Some (flashcards w !! k).
Proof.
  intros w.
  apply (backfill_makes_new_cards_due 1 1000 w ["b"] "b").
  - lia.
  - vm_compute. reflexivity.
  - vm_compute. reflexivity.
  - apply list_elem_of_here.
  - reflexivity.
Defined.

(** ** Settings *)

Lemma no_keys_no_errors data :
  app.no_keys data = true → app.validation_errors data = [].
Proof.
  intros H. destruct data. cbn in H.
  repeat match goal with
         | o : option _ |- _ => destruct o; cbn in H; [discriminate|]
         end.
  reflexivity.
Qed.

(** The handler of POST /srs/settings, case by case. *)
Lemma update_srs_settings_eq data now w :
  app.update_srs_settings data now w
  = if app.no_keys data then (app.BadRequest400 ["Missing JSON body"], w)
    else match app.validation_errors data with
         | [] =>
             let s := apply_patch
                        (default (default_settings now now) (srs_settings w))
                        data now in
             (app.Ok200 s, set_settings (Some s) w)
         | errors => (app.BadRequest400 errors, w)
         end.
Proof.
  unfold app.update_srs_settings, app.guarded.
  destruct (app.no_keys data); [done|].
  now destruct (app.validation_errors data).
Qed.

(** X17.  A reset undoes every update: whatever body POST /srs/settings was
    given before, accepted or not, the reset stores the default profile with
    the creation time the profile had, and that profile satisfies the
    cross-field constraints. *)
Theorem reset_undoes_update w s data t1 t2 :
  srs_settings w = Some s →
  let w1 := (app.update_srs_settings data t1 w).2 in
  let s0 := default_settings (created_at s) t2 in
  reset_srs_settings t2 w1 = (app.Ok200 s0, set_settings (Some s0) w1)
  ∧ srs_settings (reset_srs_settings t2 w1).2
    = srs_settings (reset_srs_settings t2 w).2
  ∧ valid_settings s0.
Proof.
  intros Hs w1 s0.
  assert (Hc : created_at <$> srs_settings w1 = Some (created_at s)).
  { subst w1. rewrite update_srs_settings_eq.
    destruct (app.no_keys data); [cbn; now rewrite Hs|].
    destruct (app.validation_errors data); [|cbn; now rewrite Hs].
    cbn. now rewrite Hs. }
  assert (Heq : ∀ w', created_at <$> srs_settings w' = Some (created_at s) →
            reset_srs_settings t2 w'
            = (app.Ok200 s0, set_settings (Some s0) w')).
  { intros w' Hw'. unfold reset_srs_settings, app.guarded, bind,
      reset_srs_settings_to_defaults, ret. now rewrite Hw'. }
  split; [now apply Heq|]. split.
  - rewrite (Heq w1 Hc), (Heq w) by now rewrite Hs. reflexivity.
  - repeat split; vm_compute; (reflexivity || discriminate).
Qed.

Lemma reset_undoes_update_witness :
  let w := fresh_db ∅ 50 in
  let w1 := (app.update_srs_settings (only_second_interval 10) 500 w).2 in
  let s0 := default_settings 50 900 in
  reset_srs_settings 900 w1 = (app.Ok200 s0, set_settings (Some s0) w1)
  ∧ srs_settings (reset_srs_settings 900 w1).2
    = srs_settings (reset_srs_settings 900 w).2
  ∧ valid_settings s0.
Proof.
  intros w.
  apply (reset_undoes_update w (default_settings 50 50)
           (only_second_interval 10) 500 900).
  reflexivity.
Defined.

(** X18.  A body with a validation error is answered with 400 and the list
    of all messages, and nothing is stored.  The list has the message of
    every check that fails: a minimum not below the maximum, a bound out of
    its range, an interval below 1, a threshold not below the maximum
    difficulty. *)
Theorem rejected_update_changes_nothing data now w :
  app.validation_errors data ≠ [] →
  app.update_srs_settings data now w
  = (app.BadRequest400 (app.validation_errors data), w)
  ∧ (∀ mn mx, p_min_ease_factor data = Some mn →
              p_max_ease_factor data = Some mx → (mx <= mn)%Q →
       "Minimum ease factor must be less than maximum ease factor"
       ∈ app.validation_errors data)
  ∧ (∀ mn, p_min_ease_factor data = Some mn → (mn < 1.0 ∨ 3.0 < mn)%Q →
       "Minimum ease factor must be between 1.0 and 3.0"
       ∈ app.validation_errors data)
  ∧ (∀ mx, p_max_ease_factor data = Some mx → (mx < 1.0 ∨ 5.0 < mx)%Q →
       "Maximum ease factor must be between 1.0 and 5.0"
       ∈ app.validation_errors data)
  ∧ (∀ i, p_initial_interval data = Some i → i < 1 →
       "Initial interval must be at least 1 day" ∈ app.validation_errors data)
  ∧ (∀ i, p_second_interval data = Some i → i < 1 →
       "Second interval must be at least 1 day" ∈ app.validation_errors data)
  ∧ (∀ i, p_max_interval data = Some i → i < 1 →
       "Maximum interval must be at least 1 day" ∈ app.validation_errors data)
  ∧ (∀ ct md, p_correct_threshold data = Some ct →
              p_max_difficulty data = Some md → md ≤ ct →
       "Correct threshold must be less than maximum difficulty"
       ∈ app.validation_errors data).
Proof.
  intros Herr. split.
  { rewrite update_srs_settings_eq.
    destruct (app.no_keys data) eqn:E;
      [now apply no_keys_no_errors in E|].
    now destruct (app.validation_errors data). }
  assert (Hlt : ∀ a b, (a < b)%Q → app.Qlt_bool a b = true).
  { intros a b Hab. unfold app.Qlt_bool.
    destruct (Qle_bool b a) eqn:E; [|done].
    apply Qle_bool_iff in E. lra. }
  unfold app.validation_errors, app.check.
  repeat split.
  - intros mn mx -> -> Hle. apply Qle_bool_iff in Hle. rewrite Hle.
    set_solver.
  - intros mn -> [H|H]; apply Hlt in H; rewrite H, ?orb_true_r; set_solver.
  - intros mx -> [H|H]; apply Hlt in H; rewrite H, ?orb_true_r; set_solver.
  - intros i -> Hi. assert ((i <? 1) = true) as -> by lia. set_solver.
  - intros i -> Hi. assert ((i <? 1) = true) as -> by lia. set_solver.
  - intros i -> Hi. assert ((i <? 1) = true) as -> by lia. set_solver.
  - intros ct md -> -> Hle. assert ((ct >=? md) = true) as -> by lia.
    set_solver.
Qed.

Lemma rejected_update_changes_nothing_witness :
  let data := mkPatch None None (Some 2.0%Q) (Some 1.5%Q) None None None None
                None None None None None None None None None None None None
                None None in
  app.update_srs_settings data 1000 (fresh_db ∅ 0)
  = (app.BadRequest400
       ["Minimum ease factor must be less than maximum ease factor"],
     fresh_db ∅ 0).
Proof.
  intros data.
  destruct (rejected_update_changes_nothing data 1000 (fresh_db ∅ 0))
    as [Heq _]; [vm_compute; discriminate|].
  rewrite Heq. reflexivity.
Defined.

Lemma apply_patch_twice s data now :
  apply_patch (apply_patch s data now) data now = apply_patch s data now.
Proof.
  unfold apply_patch; cbn. f_equal;
    match goal with |- context [default _ ?o] => now destruct o end.
Qed.

(** X19.  An accepted settings update stores what it returns, so that a
    following read gives the same profile.  [id] and [created_at] stay what
    they were and [updated_at] is the time of the update, whatever the body
    says about them.  Posting the same body again changes nothing. *)
Theorem accepted_update_round_trip data now w s :
  srs_settings w = Some s →
  app.no_keys data = false →
  app.validation_errors data = [] →
  ∃ s',
    app.update_srs_settings data now w
    = (app.Ok200 s', set_settings (Some s') w)
    ∧ (∀ t, get_srs_settings t (set_settings (Some s') w)
            = Returned s' (set_settings (Some s') w))
    ∧ id s' = id s ∧ created_at s' = created_at s ∧ updated_at s' = now
    ∧ app.update_srs_settings data now (set_settings (Some s') w)
      = (app.Ok200 s', set_settings (Some s') w).
Proof.
  intros Hs Hkeys Herr. exists (apply_patch s data now).
  rewrite !update_srs_settings_eq, Hkeys, Herr, Hs.
  cbn [default from_option Datatypes.id set_settings srs_settings].
  split; [done|]. split; [done|]. split; [done|]. split; [done|].
  split; [done|]. now rewrite apply_patch_twice.
Qed.

Lemma accepted_update_round_trip_witness :
  let w := fresh_db ∅ 50 in
  ∃ s',
    app.update_srs_settings (only_second_interval 10) 500 w
    = (app.Ok200 s', set_settings (Some s') w)
    ∧ (∀ t, get_srs_settings t (set_settings (Some s') w)
            = Returned s' (set_settings (Some s') w))
    ∧ id s' = id (default_settings 50 50)
    ∧ created_at s' = created_at (default_settings 50 50)
    ∧ updated_at s' = 500
    ∧ app.update_srs_settings (only_second_interval 10) 500
        (set_settings (Some s') w)
      = (app.Ok200 s', set_settings (Some s') w).
Proof.
  intros w.
  apply (accepted_update_round_trip (only_second_interval 10) 500 w
           (default_settings 50 50)); reflexivity.
Defined.

(** ** Stats *)


(** ** Listing the review rows *)

Section Listing.
Variables (w : Database) (changed_since : option Z).

Lemma get_all_srs_reviews_unpaged offset :
  ∃ rows,
    get_all_srs_reviews None offset changed_since w = Returned rows w
    ∧ StronglySorted next_review_le rows
    ∧ ∀ r, r ∈ rows ↔ r ∈ review_rows w ∧ selected changed_since r.
Proof.
  unfold get_all_srs_reviews, selected. eexists. split; [reflexivity|].
  split; [apply StronglySorted_merge_sort; apply _|].
  intros r. rewrite merge_sort_Permutation.
  destruct changed_since as [cs|]; [|tauto].
  rewrite list_elem_of_filter. tauto.
Qed.

(** X21.  [get_all_srs_reviews] reads only.  Without a limit it returns every
    stored row (every row whose [last_review] or [next_review] is at least
    [changed_since], when that is given) in ascending [next_review], and an
    offset passed without a limit is ignored.  With a limit it returns a
    contiguous part of that list. *)
Theorem get_all_srs_reviews_lists_rows limit offset :
  ∃ all rows,
    get_all_srs_reviews None None changed_since w = Returned all w
    ∧ get_all_srs_reviews None offset changed_since w = Returned all w
    ∧ StronglySorted next_review_le all
    ∧ (∀ r, r ∈ all ↔ r ∈ review_rows w ∧ selected changed_since r)
    ∧ get_all_srs_reviews limit offset changed_since w = Returned rows w
    ∧ (∃ before after, all = before ++ rows ++ after)
    ∧ StronglySorted next_review_le rows.
Proof.
  destruct (get_all_srs_reviews_unpaged None) as (all & Hall & Hsorted & Hin).
  assert (Hoff : get_all_srs_reviews None offset changed_since w
                 = Returned all w) by exact Hall.
  assert (Hpart : ∃ rows before after,
            get_all_srs_reviews limit offset changed_since w = Returned rows w
            ∧ all = before ++ rows ++ after).
  { injection Hall as <-. unfold get_all_srs_reviews.
    set (sorted := merge_sort next_review_le _).
    destruct limit as [l|]; [|exists sorted, [], []; now rewrite app_nil_r].
    destruct offset as [o|].
    - unfold sql_limit_offset.
      destruct (sql_limit_prefix l (drop (Z.to_nat o) sorted))
        as (rest & Hsplit & _).
      eexists _, (take (Z.to_nat o) sorted), rest. split; [reflexivity|].
      now rewrite <- Hsplit, take_drop.
    - destruct (sql_limit_prefix l sorted) as (rest & Hsplit & _).
      eexists _, [], rest. split; [reflexivity|]. exact Hsplit. }
  destruct Hpart as (rows & before & after & Hrows & Hsplit).
  exists all, rows. repeat (split; [done|]). split; [eauto|].
  rewrite Hsplit in Hsorted.
  apply StronglySorted_app_1_r, StronglySorted_app_1_l in Hsorted. exact Hsorted.
Qed.

(** X22.  Paging: for a limit [l >= 0] and an offset [o >= 0], the page at
    [o] followed by the page at [o + l] is the page of [2 l] rows at [o]. *)
Theorem get_all_srs_reviews_pages l o :
  0 ≤ l → 0 ≤ o →
  ∃ p1 p2,
    result (get_all_srs_reviews (Some l) (Some o) changed_since w) = Some p1
    ∧ result (get_all_srs_reviews (Some l) (Some (o + l)) changed_since w)
      = Some p2
    ∧ result (get_all_srs_reviews (Some (2 * l)) (Some o) changed_since w)
      = Some (p1 ++ p2).
Proof.
  intros Hl Ho. unfold get_all_srs_reviews. cbn [result].
  set (sorted := merge_sort next_review_le _).
  do 2 eexists. split; [reflexivity|]. split; [reflexivity|]. f_equal.
  unfold sql_limit_offset, sql_limit.
  assert ((l <? 0) = false) as -> by lia.
  assert ((2 * l <? 0) = false) as -> by lia.
  replace (Z.to_nat (o + l)) with (Z.to_nat o + Z.to_nat l)%nat by lia.
  replace (Z.to_nat (2 * l)) with (Z.to_nat l + Z.to_nat l)%nat by lia.
  now rewrite <- drop_drop, take_take_drop.
Qed.
End Listing.

Lemma get_all_srs_reviews_lists_rows_witness :
  let w := final_db ((initialize_card "a" 500 ;;ᴹ initialize_card "b" 100 ;;ᴹ
                      initialize_card "c" 9000)
                       (fresh_db {["a" := 0; "b" := 0; "c" := 0]} 0)) in
  get_all_srs_reviews None (Some 2) (Some 200) w
  = Returned [initial_review "a" 500; initial_review "c" 9000] w.
Proof.
  intros w.
  destruct (get_all_srs_reviews_lists_rows w (Some 200) None (Some 2))
    as (all & rows & _ & Hoff & _).
  rewrite Hoff. f_equal.
  assert (Hall : result (get_all_srs_reviews None (Some 2) (Some 200) w)
                 = Some all) by now rewrite Hoff.
  vm_compute in Hall. now injection Hall as <-.
Defined.

Lemma get_all_srs_reviews_pages_witness :
  let w := final_db ((initialize_card "a" 500 ;;ᴹ initialize_card "b" 100 ;;ᴹ
                      initialize_card "c" 9000)
                       (fresh_db {["a" := 0; "b" := 0; "c" := 0]} 0)) in
  ∃ p1 p2,
    result (get_all_srs_reviews (Some 1) (Some 1) None w) = Some p1
    ∧ result (get_all_srs_reviews (Some 1) (Some (1 + 1)) None w) = Some p2
    ∧ result (get_all_srs_reviews (Some (2 * 1)) (Some 1) None w)
      = Some (p1 ++ p2).
Proof.
  intros w. apply (get_all_srs_reviews_pages w None 1 1); lia.
Defined.

(** ** Statistics *)




Lemma categorize_filters reviews : ∀ acc,
  categorize reviews acc
  = mkByInterval
      (new_cards acc
       ++ (card_id <$> filter (λ r, repetition r = 0) reviews))
      (learning_cards acc
       ++ (card_id <$> filter (λ r, repetition r ≠ 0 ∧ interval_days r < 21)
                         reviews))
      (mature_cards acc
       ++ (card_id <$> filter (λ r, repetition r ≠ 0 ∧ 21 ≤ interval_days r)
                         reviews)).
Proof.
  induction reviews as [|r reviews IH]; intros acc; cbn [categorize].
  - rewrite !filter_nil. cbn. rewrite !app_nil_r. now destruct acc.
  - rewrite IH. destruct (repetition r =? 0) eqn:E0.
    + apply Z.eqb_eq in E0.
      rewrite (filter_cons_True (λ r, repetition r = 0)) by done.
      rewrite !filter_cons_False by lia.
      cbn. now rewrite <- app_assoc.
    + apply Z.eqb_neq in E0.
      rewrite (filter_cons_False (λ r, repetition r = 0)) by done.
      destruct (interval_days r <? 21) eqn:E1.
      * rewrite (filter_cons_True (λ r, _ ∧ interval_days r < 21)) by lia.
        rewrite filter_cons_False by lia. cbn. now rewrite <- app_assoc.
      * rewrite (filter_cons_False (λ r, _ ∧ interval_days r < 21)) by lia.
        rewrite filter_cons_True by lia. cbn. now rewrite <- app_assoc.
Qed.

Lemma three_way_split (l : list ReviewState) :
  (card_id <$> filter (λ r, repetition r = 0) l)
  ++ (card_id <$> filter (λ r, repetition r ≠ 0 ∧ interval_days r < 21) l)
  ++ (card_id <$> filter (λ r, repetition r ≠ 0 ∧ 21 ≤ interval_days r) l)
  ≡ₚ card_id <$> l.
Proof.
  induction l as [|r l IH]; [done|].
  destruct (decide (repetition r = 0)) as [H0|H0].
  - rewrite (filter_cons_True (λ r, repetition r = 0)) by done.
    rewrite !filter_cons_False by lia. cbn. now rewrite IH.
  - rewrite (filter_cons_False (λ r, repetition r = 0)) by done.
    destruct (decide (interval_days r < 21)) as [H1|H1].
    + rewrite (filter_cons_True (λ r, _ ∧ interval_days r < 21)) by lia.
      rewrite filter_cons_False by lia. cbn.
      rewrite <- Permutation_middle. now rewrite IH.
    + rewrite (filter_cons_False (λ r, _ ∧ interval_days r < 21)) by lia.
      rewrite filter_cons_True by lia. cbn.
      rewrite app_assoc, <- Permutation_middle, <- app_assoc. now rewrite IH.
Qed.

Lemma consistent_card_ids_NoDup w :
  consistent w → NoDup (card_id <$> review_rows w).
Proof.
  intros Hw. unfold review_rows. rewrite <- list_fmap_compose.
  rewrite (list_fmap_ext (card_id ∘ snd) fst).
  - apply NoDup_fst_map_to_list.
  - intros i [k r] Hi. cbn.
    apply (list_elem_of_lookup_2 _ i), elem_of_map_to_list in Hi.
    now destruct (Hw k r Hi).
Qed.

(** X24.  [get_cards_by_interval] sorts every review row into exactly one
    list: "new" when its repetition is 0, otherwise "learning" when its
    interval is under 21 days and "mature" when not.  On a consistent
    database the three lists together hold each card id once. *)
Theorem cards_by_interval_partition w b :
  result (get_cards_by_interval w) = Some b →
  (∀ cid, cid ∈ new_cards b
          ↔ ∃ r, r ∈ review_rows w ∧ card_id r = cid ∧ repetition r = 0)
  ∧ (∀ cid, cid ∈ learning_cards b
            ↔ ∃ r, r ∈ review_rows w ∧ card_id r = cid
                   ∧ repetition r ≠ 0 ∧ interval_days r < 21)
  ∧ (∀ cid, cid ∈ mature_cards b
            ↔ ∃ r, r ∈ review_rows w ∧ card_id r = cid
                   ∧ repetition r ≠ 0 ∧ 21 ≤ interval_days r)
  ∧ new_cards b ++ learning_cards b ++ mature_cards b
    ≡ₚ card_id <$> review_rows w
  ∧ (consistent w →
     NoDup (new_cards b ++ learning_cards b ++ mature_cards b)).
Proof.
  unfold get_cards_by_interval, bind, get_all_srs_reviews, ret.
  cbn [result]. intros [= <-]. rewrite categorize_filters.
  cbn [new_cards learning_cards mature_cards app].
  set (reviews := merge_sort next_review_le (review_rows w)).
  assert (Hperm : reviews ≡ₚ review_rows w) by apply merge_sort_Permutation.
  assert (Hmem : ∀ (P : ReviewState → Prop) `{∀ r, Decision (P r)} cid,
            cid ∈ card_id <$> filter P reviews
            ↔ ∃ r, r ∈ review_rows w ∧ card_id r = cid ∧ P r).
  { intros P HP cid. rewrite list_elem_of_fmap. split.
    - intros (r & -> & Hr). apply list_elem_of_filter in Hr as [HPr Hr].
      exists r. now rewrite <- Hperm.
    - intros (r & Hr & <- & HPr). exists r. split; [done|].
      apply list_elem_of_filter. now rewrite Hperm. }
  split; [apply Hmem|]. split; [apply Hmem|]. split; [apply Hmem|].
  assert (Hall : (card_id <$> filter (λ r, repetition r = 0) reviews)
                 ++ (card_id <$> filter (λ r, repetition r ≠ 0
                                              ∧ interval_days r < 21) reviews)
                 ++ (card_id <$> filter (λ r, repetition r ≠ 0
                                              ∧ 21 ≤ interval_days r) reviews)
                 ≡ₚ card_id <$> review_rows w)
    by now rewrite three_way_split, Hperm.
  split; [exact Hall|].
  intros Hw. rewrite Hall. now apply consistent_card_ids_NoDup.
Qed.

Lemma cards_by_interval_partition_witness :
  let w := final_db (review_card "a" 2 1000
                       (fresh_db {["a" := 0; "b" := 0]} 0)) in
  ∃ b, result (get_cards_by_interval w) = Some b
       ∧ new_cards b ++ learning_cards b ++ mature_cards b
         ≡ₚ card_id <$> review_rows w.
Proof.
  intros w. eexists. split; [reflexivity|].
  now destruct (cards_by_interval_partition w _ eq_refl) as (_ & _ & _ & H & _).
Defined.
